(** * Products API (Express.js): a shallow embedding of [server.js]

    The development follows the source file top to bottom: the error classes,
    the seed collection, the middleware ([authenticateApiKey],
    [validateProduct]), the route handlers and the global error handler.

    Conventions of the embedding.
    - A JavaScript string is a [string]; each character stands for one UTF-16
      code unit below 256 (the Latin-1 range), on which [toLowerCase] and
      [trim] are written out in full.
    - The numbers of the pagination code are integer-valued doubles, the
      two infinities or NaN ([number]); [parseInt] rounds what it reads to
      the nearest double. A difference or product of two integers is kept
      exact: rounding it, or replacing it by an infinity, changes neither
      its sign nor its comparison with the length of an array, which is all
      that [slice], [hasNext] and [hasPrev] read of it. The sign of a zero
      is not kept: it shows only in the sign of an infinite [totalPages],
      and the JSON of the response prints either infinity as [null].
    - A query parameter is absent, a string, or what the query parser makes
      of a repeated or bracketed key: an array or an object ([param]).
    - A price is a binary64 double ([spec_float] with precision 53 and
      maximal exponent 1024), with the rounding of [+] and [/] written out by
      the Standard Library's [SpecFloat].
    - The global [products] array and the calls to [uuidv4] are threaded
      through an explicit [state]. *)

From Stdlib Require Import ZArith NArith List Ascii String Bool Lia.
From Stdlib Require Import DecimalString.
From Stdlib Require Import Floats.SpecFloat.
From stdpp Require Import base option list strings gmap.

Set Warnings "-register-all".
Local Open Scope Z_scope.

(** ** Strings *)

Module JsString.

(** [String.prototype.toLowerCase] on one code unit below 256: the letters
    A-Z and the Latin-1 capitals U+00C0-U+00DE (the sign U+00D7 apart) move
    up by 32. *)
Definition lower_char (c : ascii) : ascii :=
  let n := N_of_ascii c in
  if ((65 <=? n) && (n <=? 90))%N
     || ((192 <=? n) && (n <=? 222) && negb (n =? 215))%N
  then ascii_of_N (n + 32) else c.

Fixpoint toLowerCase (s : string) : string :=
  match s with
  | EmptyString => EmptyString
  | String c r => String (lower_char c) (toLowerCase r)
  end.

(** White space and line terminators below 256: TAB, LF, VT, FF, CR, SP and
    NBSP. *)
Definition is_white (c : ascii) : bool :=
  let n := N_of_ascii c in
  ((9 <=? n) && (n <=? 13) || (n =? 32) || (n =? 160))%N.

Fixpoint trimStart (s : string) : string :=
  match s with
  | EmptyString => EmptyString
  | String c r => if is_white c then trimStart r else s
  end.

Fixpoint trimEnd (s : string) : string :=
  match s with
  | EmptyString => EmptyString
  | String c r =>
      match trimEnd r with
      | EmptyString => if is_white c then EmptyString else String c EmptyString
      | r' => String c r'
      end
  end.

Definition trim (s : string) : string := trimEnd (trimStart s).

(** [s.includes(t)]: [t] occurs in [s] at some position. *)
Fixpoint includes (s t : string) : bool :=
  String.prefix t s ||
  match s with
  | EmptyString => false
  | String _ r => includes r t
  end.

(** [a.join(sep)] on an array of strings. *)
Fixpoint join (sep : string) (l : list string) : string :=
  match l with
  | [] => EmptyString
  | [x] => x
  | x :: r => x +:+ sep +:+ join sep r
  end.

(** ToBoolean on a string. *)
Definition nonempty (s : string) : bool :=
  match s with EmptyString => false | _ => true end.

End JsString.
Import JsString.

(** ** Numbers of the pagination code *)

(** The results of [parseInt] and of [-] and [*] on them: NaN, an infinity
    ([negative] or not) or an integer. *)
Inductive number :=
  | NaN
  | Inf (negative : bool)
  | Int (z : Z).

(** The result of [Math.ceil(length / limitNum)]: NaN, an infinity of
    either sign (a non-empty length over a zero limit) or an integer. *)
Inductive quotient :=
  | QNaN
  | QInfinity
  | QInt (z : Z).

Module Num.

Definition sub (a b : number) : number :=
  match a, b with
  | Int x, Int y => Int (x - y)
  | Inf s, Int _ => Inf s
  | Int _, Inf s => Inf (negb s)
  | Inf s, Inf s' => if Bool.eqb s s' then NaN else Inf s
  | _, _ => NaN
  end.

Definition mul (a b : number) : number :=
  match a, b with
  | Int x, Int y => Int (x * y)
  | Inf s, Int y | Int y, Inf s =>
      if y =? 0 then NaN else Inf (xorb s (y <? 0))
  | Inf s, Inf s' => Inf (xorb s s')
  | _, _ => NaN
  end.

(** [a < b]; a comparison with NaN is false. *)
Definition lt (a b : number) : bool :=
  match a, b with
  | Int x, Int y => x <? y
  | Inf true, Int _ | Int _, Inf false | Inf true, Inf false => true
  | _, _ => false
  end.

Definition gt (a b : number) : bool := lt b a.

(** [Math.ceil(n / d)] for an array length [n]; a length over an infinity
    is a zero. *)
Definition ceil_div (n : Z) (d : number) : quotient :=
  match d with
  | NaN => QNaN
  | Inf _ => QInt 0
  | Int 0 => if n =? 0 then QNaN else QInfinity
  | Int l => QInt (- ((- n) / l))
  end.

(** The double nearest to an integer, ties to even: the integer it stands
    for, or an infinity from 2^1024 on. *)
Definition of_integer (z : Z) : number :=
  match binary_normalize 53 1024 z 0 false with
  | S754_zero _ => Int 0
  | S754_finite s m e => Int (cond_Zopp s (Z.shiftl (Z.pos m) e))
  | S754_infinity s => Inf s
  | S754_nan => NaN
  end.

(** The value of a digit in radix up to 36. *)
Definition digit_value (c : ascii) : option Z :=
  let n := Z.of_N (N_of_ascii c) in
  if (48 <=? n) && (n <=? 57) then Some (n - 48)
  else if (97 <=? n) && (n <=? 122) then Some (n - 87)
  else if (65 <=? n) && (n <=? 90) then Some (n - 55)
  else None.

(** The longest prefix of radix-[R] digits, as an integer; [acc] is [None]
    until a first digit is read. *)
Fixpoint parse_digits (R : Z) (s : string) (acc : option Z) : option Z :=
  match s with
  | EmptyString => acc
  | String c r =>
      match digit_value c with
      | Some d =>
          if d <? R
          then parse_digits R r (Some (R * default 0 acc + d))
          else acc
      | None => acc
      end
  end.

(** [parseInt(s)] with no radix argument: leading white space, a sign, a
    [0x] or [0X] prefix, then digits; NaN when no digit is found, and
    otherwise the double nearest to the integer read. *)
Definition parseInt (s : string) : number :=
  let s0 := trimStart s in
  let '(sign, s1) :=
    match s0 with
    | String "-" r => (-1, r)
    | String "+" r => (1, r)
    | _ => (1, s0)
    end in
  let '(R, s2) :=
    match s1 with
    | String "0" (String "x" r) => (16, r)
    | String "0" (String "X" r) => (16, r)
    | _ => (10, s1)
    end in
  match parse_digits R s2 None with
  | None => NaN
  | Some n => of_integer (sign * n)
  end.

End Num.

(** ** Arrays *)

Module Arr.
Section Ops.
Context {A : Type}.

(** The relative index of an argument of [slice]: NaN counts as 0, a
    negative integer counts from the end, and the result is clamped to
    [0, len] (so the infinities give 0 and [len]). *)
Definition relative (len : Z) (n : number) : Z :=
  match n with
  | NaN => 0
  | Inf true => 0
  | Inf false => len
  | Int k => if k <? 0 then Z.max (len + k) 0 else Z.min k len
  end.

(** [a.slice(start, end)]. *)
Definition slice (l : list A) (start end_ : number) : list A :=
  let len := Z.of_nat (length l) in
  let k := relative len start in
  let final := relative len end_ in
  take (Z.to_nat (final - k)) (drop (Z.to_nat k) l).

(** [a.findIndex(f)]; [None] stands for -1. *)
Fixpoint findIndex (f : A -> bool) (l : list A) : option nat :=
  match l with
  | [] => None
  | x :: r => if f x then Some 0%nat else S <$> findIndex f r
  end.

(** [a.find(f)]; [None] stands for undefined. *)
Fixpoint find (f : A -> bool) (l : list A) : option A :=
  match l with
  | [] => None
  | x :: r => if f x then Some x else find f r
  end.
End Ops.
End Arr.

(** ** Doubles *)

Module Double.

Definition prec : Z := 53.
Definition emax : Z := 1024.

Definition zero : spec_float := S754_zero false.

(** The double nearest to an integer. *)
Definition of_Z (z : Z) : spec_float := binary_normalize prec emax z 0 false.

Definition add (x y : spec_float) : spec_float := SFadd prec emax x y.
Definition div (x y : spec_float) : spec_float := SFdiv prec emax x y.
Definition leb (x y : spec_float) : bool := SFleb x y.
Definition ltb (x y : spec_float) : bool := SFltb x y.

(** A decimal literal with [k] digits after the point, such as 1299.99:
    the double nearest to [m / 10^k]. *)
Definition literal (m : Z) (k : nat) : spec_float :=
  div (of_Z m) (of_Z (10 ^ Z.of_nat k)).

(** ToBoolean on a number: false for 0, -0 and NaN. *)
Definition truthy (x : spec_float) : bool :=
  match x with
  | S754_zero _ | S754_nan => false
  | _ => true
  end.

(** [parseFloat(x)] on a number: [x] is printed and read back, which gives
    [x] again, -0 apart (it prints as 0). *)
Definition parseFloat (x : spec_float) : spec_float :=
  match x with
  | S754_zero _ => zero
  | _ => x
  end.

(** The result of [toFixed]: the digits in fixed-point notation, or, for a
    value that is not finite or is at least 10^21, the string that
    Number::toString gives it (NaN, Infinity, -Infinity, or a numeral with
    an exponent such as 1e+21), which is left unprinted. *)
Inductive numeral :=
  | Fixed (s : string)
  | NumberToString (x : spec_float).

(** The decimal digits of a natural number. *)
Definition digits (n : N) : string := NilZero.string_of_uint (N.to_uint n).

Fixpoint zeros (k : nat) : string :=
  match k with
  | O => EmptyString
  | S k' => String "0" (zeros k')
  end.

(** The integer [n] for which [n / 10^f - m * 2^e] is as close to zero as
    possible, the larger one when there are two. *)
Definition scaled (f : nat) (m : positive) (e : Z) : N :=
  let p := Z.pos m * 10 ^ Z.of_nat f in
  Z.to_N (if 0 <=? e then p * 2 ^ e
          else (2 * p + 2 ^ (- e)) / 2 ^ (- e + 1)).

(** The digits of [n] with a point before the last [f] of them, padded
    with zeros on the left to [f + 1] digits. *)
Definition point (f : nat) (n : N) : string :=
  let m := digits n in
  match f with
  | O => m
  | _ =>
      let k := String.length m in
      let m := if (k <=? f)%nat then zeros (f + 1 - k) +:+ m else m in
      let k := String.length m in
      String.substring 0 (k - f) m +:+ "." +:+ String.substring (k - f) f m
  end.

(** [m * 2^e >= 10^21]. *)
Definition large (m : positive) (e : Z) : bool :=
  if 0 <=? e then 10 ^ 21 <=? Z.pos m * 2 ^ e
  else 10 ^ 21 * 2 ^ (- e) <=? Z.pos m.

(** [x.toFixed(f)] for [0 <= f <= 100]. *)
Definition toFixed (f : nat) (x : spec_float) : numeral :=
  match x with
  | S754_nan | S754_infinity _ => NumberToString x
  | S754_zero _ => Fixed (point f 0)
  | S754_finite s m e =>
      if large m e then NumberToString x
      else Fixed ((if s then "-" else "") +:+ point f (scaled f m e))
  end.

End Double.

(** ** Values of a parsed JSON body *)

Inductive value :=
  | VUndefined
  | VNull
  | VBool (b : bool)
  | VNumber (x : spec_float)
  | VString (s : string)
  | VArray (items : list value)
  | VObject (fields : list (string * value)).

Module Value.

(** ToBoolean. *)
Definition truthy (v : value) : bool :=
  match v with
  | VUndefined | VNull => false
  | VBool b => b
  | VNumber x => Double.truthy x
  | VString s => nonempty s
  | VArray _ | VObject _ => true
  end.

Definition typeof (v : value) : string :=
  match v with
  | VUndefined => "undefined"
  | VNull => "object"
  | VBool _ => "boolean"
  | VNumber _ => "number"
  | VString _ => "string"
  | VArray _ | VObject _ => "object"
  end.

(** The property [k] of a parsed JSON object given by its members;
    undefined when there is none. *)
Fixpoint prop (k : string) (o : list (string * value)) : value :=
  match o with
  | [] => VUndefined
  | (k', v) :: r => if String.eqb k' k then v else prop k r
  end.

End Value.

(** ** Error classes (lines 8-30) *)

Inductive error :=
  | NotFoundError (message : string)
  | ValidationError (message : string)
  | AuthenticationError (message : string)
  | OtherError.  (* any other exception, such as a TypeError of the runtime *)

(** ** Products and the collection (lines 32-73) *)

Module Product.
Record t := mk {
  id : string;
  name : string;
  description : string;
  price : spec_float;
  category : string;
  inStock : bool
}.
End Product.

(** The state of the process: the [products] array and the number of calls
    made to [uuidv4] so far. *)
Record state := {
  products : list Product.t;
  calls : nat
}.

(** ** Query parameters and responses *)

(** The value of a query parameter as the query parser hands it over: a
    string for a key given once, an array for a repeated key or a key with
    empty brackets, an object for a key with named brackets. *)
Inductive param :=
  | PString (s : string)
  | PArray (items : list param)
  | PObject (fields : list (string * param)).


Record pagination := {
  currentPage : number;
  totalPages : quotient;
  totalProducts : nat;
  hasNext : bool;
  hasPrev : bool
}.

(** [averagePrice] is the number 0 or a [toFixed] string. *)
Inductive average :=
  | AverageZero
  | AverageFixed (s : Double.numeral).

Module Stats.
Record t := mk {
  totalProducts : nat;
  inStockCount : nat;
  outOfStockCount : nat;
  categoryCounts : gmap string number;
  averagePrice : average;
  totalValue : Double.numeral
}.
End Stats.

Inductive payload :=
  | Listing (products : list Product.t) (pagination : pagination)
  | SearchResults (query : param) (results : list Product.t) (count : nat)
  | Statistics (stats : Stats.t)
  | OneProduct (product : Product.t)
  | Message (message : string) (product : Product.t)
  | MessageOnly (message : string)
  | Failure (error : string) (message : string).

Record response := {
  status : Z;
  body : payload
}.

(** ** Handlers as state-passing computations that may throw *)

Inductive outcome (A : Type) :=
  | Return (a : A)
  | Throw (e : error).
Arguments Return {A} a.
Arguments Throw {A} e.

Definition M (A : Type) : Type := state -> outcome A * state.

Definition ret {A} (a : A) : M A := fun st => (Return a, st).
Definition throw {A} (e : error) : M A := fun st => (Throw e, st).
Definition bind {A B} (m : M A) (k : A -> M B) : M B :=
  fun st =>
    match m st with
    | (Return a, st') => k a st'
    | (Throw e, st') => (Throw e, st')
    end.
Definition get : M state := fun st => (Return st, st).
(** A computation that does not touch the state. *)
Definition lift {A} (o : outcome A) : M A := fun st => (o, st).
Definition put (st : state) : M unit := fun _ => (Return tt, st).

Notation "'let*' x ':=' m 'in' k" := (bind m (fun x => k))
  (at level 10, x pattern, m at level 100, k at level 200).
Notation "m ';;' k" := (bind m (fun _ => k))
  (at level 100, k at level 200, right associativity).

(** [a.filter(f)] for a callback that may throw: the first exception ends
    the loop. *)
Fixpoint filter_try {A} (f : A -> outcome bool) (l : list A)
  : outcome (list A) :=
  match l with
  | [] => Return []
  | x :: r =>
      match f x with
      | Throw e => Throw e
      | Return b =>
          match filter_try f r with
          | Throw e => Throw e
          | Return r' => Return (if b then x :: r' else r')
          end
      end
  end.

Module Param.

(** ToBoolean: only the empty string is false. *)
Definition truthy (p : param) : bool :=
  match p with
  | PString s => nonempty s
  | PArray _ | PObject _ => true
  end.

(** Whether [key] is one of the own keys of an object of the query. *)
Definition has_own (key : string) (fields : list (string * param)) : bool :=
  existsb (fun field => String.eqb (fst field) key) fields.

(** ToString, as [parseInt] applies it to its argument. An array prints its
    items separated by commas. An object prints as [[object Object]] through
    [Object.prototype.toString], unless a key [toString] of its own hides
    that method: the value of the key is no function, [valueOf] returns no
    primitive value either, and the conversion is a TypeError. *)
Fixpoint toString (p : param) : outcome string :=
  match p with
  | PString s => Return s
  | PArray items =>
      match
        (fix each (l : list param) : outcome (list string) :=
           match l with
           | [] => Return []
           | item :: r =>
               match toString item with
               | Throw e => Throw e
               | Return s =>
                   match each r with
                   | Throw e => Throw e
                   | Return printed => Return (s :: printed)
                   end
               end
           end) items
      with
      | Throw e => Throw e
      | Return printed => Return (join "," printed)
      end
  | PObject fields =>
      if has_own "toString" fields then Throw OtherError
      else Return "[object Object]"
  end.

(** [p.toLowerCase()]: a TypeError unless [p] is a string. *)
Definition toLowerCase (p : param) : outcome string :=
  match p with
  | PString s => Return (JsString.toLowerCase s)
  | PArray _ | PObject _ => Throw OtherError
  end.

(** [p === 'true'] *)
Definition is_true (p : param) : bool :=
  match p with
  | PString s => String.eqb s "true"
  | PArray _ | PObject _ => false
  end.

End Param.

(** The query of a listing request: each parameter is absent or has a
    value. *)
Module Query.
Record t := mk {
  category : option param;
  search : option param;
  page : option param;
  limit : option param;
  inStock : option param
}.
End Query.

(** The requests of the routes of lines 148-322. *)
Inductive request :=
  | GetProducts (query : Query.t)
  | GetSearch (q : option param)
  | GetStats
  | GetProduct (id : string)
  | PostProduct (apiKey : option string) (body : list (string * value))
  | PutProduct (id : string) (apiKey : option string)
      (body : list (string * value))
  | DeleteProduct (id : string) (apiKey : option string).

(** The own properties of [stats.categoryCounts], an object literal, read and
    written through [Object.prototype]. *)
Module Obj.

(** The properties every object literal inherits. *)
Definition Object_prototype : list string :=
  [ "constructor"; "__defineGetter__"; "__defineSetter__"; "hasOwnProperty";
    "__lookupGetter__"; "__lookupSetter__"; "isPrototypeOf";
    "propertyIsEnumerable"; "toString"; "valueOf"; "__proto__";
    "toLocaleString" ].

(** What [o[k]] reads: an own number, an inherited function or object, or
    undefined. *)
Inductive read :=
  | Own (v : number)
  | Inherited
  | Absent.

Definition get (o : gmap string number) (k : string) : read :=
  match o !! k with
  | Some v => Own v
  | None => if bool_decide (k ∈ Object_prototype) then Inherited else Absent
  end.

(** [o[k] = v]: the accessor [__proto__] ignores a number, any other key
    becomes an own property. *)
Definition set (o : gmap string number) (k : string) (v : number)
  : gmap string number :=
  if String.eqb k "__proto__" then o else <[k := v]> o.

(** ToBoolean of what was read. *)
Definition truthy (r : read) : bool :=
  match r with
  | Own NaN => false
  | Own (Inf _) => true
  | Own (Int z) => negb (z =? 0)
  | Inherited => true
  | Absent => false
  end.

(** ToNumber of what was read, plus one ([o[k]++]). *)
Definition incremented (r : read) : number :=
  match r with
  | Own (Int z) => Int (z + 1)
  | Own (Inf s) => Inf s
  | _ => NaN
  end.

End Obj.

Definition quote : string := String (ascii_of_N 34) EmptyString.

Section Server.

(** [process.env.API_KEY]. *)
Variable API_KEY : option string.

(** [uuidv4 n] is the identifier that the call number [n] of the uuid
    library's generator returns. *)
Variable uuidv4 : nat -> string.

(** The seed collection (lines 32-73); its five identifiers come from the
    first five calls. *)
Definition initial : state :=
  {| products :=
       [ Product.mk (uuidv4 0) "Gaming Laptop"
           "High-performance laptop for gaming and productivity"
           (Double.literal 129999 2) "Electronics" true;
         Product.mk (uuidv4 1) "Smartphone Pro"
           "Latest flagship smartphone with advanced camera"
           (Double.literal 89999 2) "Electronics" true;
         Product.mk (uuidv4 2) "Coffee Maker"
           "Automatic drip coffee maker with programmable timer"
           (Double.literal 7999 2) "Kitchen" false;
         Product.mk (uuidv4 3) "Ergonomic Office Chair"
           "Comfortable office chair with lumbar support"
           (Double.literal 24999 2) "Furniture" true;
         Product.mk (uuidv4 4) "Wireless Mouse"
           "Precision wireless mouse with long battery life"
           (Double.literal 3999 2) "Electronics" true ];
     calls := 5 |}.

(** A call to [uuidv4()]. *)
Definition fresh_uuid : M string :=
  fun st => (Return (uuidv4 (calls st)),
             {| products := products st; calls := S (calls st) |}).

(** *** Middleware (lines 86-131) *)

Definition validApiKey : string :=
  match API_KEY with
  | Some k => if nonempty k then k else "your-secret-api-key"
  | None => "your-secret-api-key"
  end.

(** [apiKey] is the header [x-api-key], or [None] when the request has
    none. *)
Definition authenticateApiKey (apiKey : option string) : M unit :=
  match apiKey with
  | None => throw (AuthenticationError "API key is required")
  | Some k =>
      if negb (nonempty k)
      then throw (AuthenticationError "API key is required")
      else if negb (String.eqb k validApiKey)
      then throw (AuthenticationError "Invalid API key")
      else ret tt
  end.

(** [v.trim().length] for a value whose [typeof] is ['string']. *)
Definition trimmed_length (v : value) : nat :=
  match v with
  | VString s => String.length (trim s)
  | _ => 0
  end.

(** [!v || typeof v !== 'string' || v.trim().length < n] *)
Definition bad_text (n : nat) (v : value) : bool :=
  negb (Value.truthy v)
  || negb (String.eqb (Value.typeof v) "string")
  || (trimmed_length v <? n)%nat.

(** [!price || typeof price !== 'number' || price <= 0] *)
Definition bad_price (v : value) : bool :=
  negb (Value.truthy v)
  || negb (String.eqb (Value.typeof v) "number")
  || match v with
     | VNumber x => Double.leb x Double.zero
     | _ => false
     end.

(** [errors.push(msg)] under a condition. *)
Definition push_if (c : bool) (msg : string) (errors : list string)
  : list string :=
  if c then errors ++ [msg] else errors.

(** The [errors] array at line 126. *)
Definition validation_errors (body : list (string * value)) : list string :=
  let name := Value.prop "name" body in
  let description := Value.prop "description" body in
  let price := Value.prop "price" body in
  let category := Value.prop "category" body in
  let inStock := Value.prop "inStock" body in
  let errors := [] in
  let errors := push_if (bad_text 2 name)
    "Name is required and must be at least 2 characters" errors in
  let errors := push_if (bad_text 5 description)
    "Description is required and must be at least 5 characters" errors in
  let errors := push_if (bad_price price)
    "Price is required and must be a positive number" errors in
  let errors := push_if (bad_text 2 category)
    "Category is required and must be at least 2 characters" errors in
  let errors := push_if (negb (String.eqb (Value.typeof inStock) "boolean"))
    "inStock is required and must be a boolean value" errors in
  errors.

Definition validateProduct (body : list (string * value)) : M unit :=
  let errors := validation_errors body in
  if (0 <? length errors)%nat
  then throw (ValidationError ("Validation failed: " +:+ join ", " errors))
  else ret tt.

(** *** GET /api/products (lines 148-194) *)

(** Lines 153-174: the three filters. A parameter that is not a string
    makes [toLowerCase] throw: inside the callback of the category filter,
    hence at the first product it is called on, and before the search filter
    starts. *)
Definition filter_products (query : Query.t) (all : list Product.t)
  : outcome (list Product.t) :=
  let filteredProducts := all in
  match
    match Query.category query with
    | Some category =>
        if Param.truthy category
        then filter_try (fun product =>
               match Param.toLowerCase category with
               | Return lowered =>
                   Return (String.eqb (toLowerCase (Product.category product))
                                      lowered)
               | Throw e => Throw e
               end) filteredProducts
        else Return filteredProducts
    | None => Return filteredProducts
    end
  with
  | Throw e => Throw e
  | Return filteredProducts =>
      let filteredProducts :=
        match Query.inStock query with
        | Some inStock =>
            let stockFilter := Param.is_true inStock in
            List.filter (fun product =>
              Bool.eqb (Product.inStock product) stockFilter) filteredProducts
        | None => filteredProducts
        end in
      match Query.search query with
      | Some search =>
          if Param.truthy search
          then
            match Param.toLowerCase search with
            | Return searchTerm =>
                Return
                  (List.filter (fun product =>
                     includes (toLowerCase (Product.name product)) searchTerm
                     || includes (toLowerCase (Product.description product))
                          searchTerm
                     || includes (toLowerCase (Product.category product))
                          searchTerm)
                     filteredProducts)
            | Throw e => Throw e
            end
          else Return filteredProducts
      | None => Return filteredProducts
      end
  end.

(** [parseInt(page)] with the default of the destructuring at line 151:
    an absent parameter is the number [dflt]. *)
Definition parse_param (dflt : Z) (p : option param) : outcome number :=
  match p with
  | None => Return (Int dflt)
  | Some v =>
      match Param.toString v with
      | Return s => Return (Num.parseInt s)
      | Throw e => Throw e
      end
  end.

(** Lines 176-193: the page and its metadata. *)
Definition paginate (filteredProducts : list Product.t)
    (pageNum limitNum : number) : payload :=
  let startIndex := Num.mul (Num.sub pageNum (Int 1)) limitNum in
  let endIndex := Num.mul pageNum limitNum in
  let paginatedProducts := Arr.slice filteredProducts startIndex endIndex in
  Listing paginatedProducts
    {| currentPage := pageNum;
       totalPages :=
         Num.ceil_div (Z.of_nat (length filteredProducts)) limitNum;
       totalProducts := length filteredProducts;
       hasNext :=
         Num.lt endIndex (Int (Z.of_nat (length filteredProducts)));
       hasPrev := Num.gt startIndex (Int 0) |}.

Definition list_products (query : Query.t) : M response :=
  let* st := get in
  let* filteredProducts := lift (filter_products query (products st)) in
  let* pageNum := lift (parse_param 1 (Query.page query)) in
  let* limitNum := lift (parse_param 10 (Query.limit query)) in
  ret {| status := 200;
         body := paginate filteredProducts pageNum limitNum |}.

(** *** GET /api/products/search (lines 197-215) *)

Definition search_products (q : option param) : M response :=
  match q with
  | Some q =>
      if Param.truthy q
      then
        let* st := get in
        let* searchTerm := lift (Param.toLowerCase q) in
        let searchResults :=
          List.filter (fun product =>
            includes (toLowerCase (Product.name product)) searchTerm
            || includes (toLowerCase (Product.description product)) searchTerm)
            (products st) in
        ret {| status := 200;
               body := SearchResults q searchResults (length searchResults) |}
      else throw (ValidationError
             ("Search query parameter " +:+ quote +:+ "q" +:+ quote
              +:+ " is required"))
  | None => throw (ValidationError
             ("Search query parameter " +:+ quote +:+ "q" +:+ quote
              +:+ " is required"))
  end.

(** *** GET /api/products/stats (lines 218-246) *)

(** One turn of the [forEach] at lines 230-240, on the pair of
    [stats.categoryCounts] and [totalPrice]. *)
Definition stats_step (acc : gmap string number * spec_float)
    (product : Product.t) : gmap string number * spec_float :=
  let '(categoryCounts, totalPrice) := acc in
  let r := Obj.get categoryCounts (Product.category product) in
  let categoryCounts :=
    if Obj.truthy r
    then Obj.set categoryCounts (Product.category product) (Obj.incremented r)
    else Obj.set categoryCounts (Product.category product) (Int 1) in
  (categoryCounts, Double.add totalPrice (Product.price product)).

Definition compute_stats (all : list Product.t) : Stats.t :=
  let '(categoryCounts, totalPrice) :=
    fold_left stats_step all (∅, Double.zero) in
  {| Stats.totalProducts := length all;
     Stats.inStockCount :=
       length (List.filter (fun p => Product.inStock p) all);
     Stats.outOfStockCount :=
       length (List.filter (fun p => negb (Product.inStock p)) all);
     Stats.categoryCounts := categoryCounts;
     Stats.averagePrice :=
       if (0 <? length all)%nat
       then AverageFixed
              (Double.toFixed 2
                 (Double.div totalPrice (Double.of_Z (Z.of_nat (length all)))))
       else AverageZero;
     Stats.totalValue := Double.toFixed 2 totalPrice |}.

Definition product_stats : M response :=
  let* st := get in
  ret {| status := 200; body := Statistics (compute_stats (products st)) |}.

(** *** GET /api/products/:id (lines 249-258) *)

Definition get_product (id : string) : M response :=
  let* st := get in
  match Arr.find (fun p => String.eqb (Product.id p) id) (products st) with
  | Some product => ret {| status := 200; body := OneProduct product |}
  | None => throw (NotFoundError "Product not found")
  end.

(** *** POST /api/products (lines 261-279) *)

(** [v.trim()]: a TypeError unless [v] is a string. *)
Definition call_trim (v : value) : M string :=
  match v with
  | VString s => ret (trim s)
  | _ => throw OtherError
  end.

(** [parseFloat(v)] for a number [v], the only values that pass
    [validateProduct]; the model does not follow the other values (it stops
    them with [OtherError]). *)
Definition call_parseFloat (v : value) : M spec_float :=
  match v with
  | VNumber x => ret (Double.parseFloat x)
  | _ => throw OtherError
  end.

(** The object literal of lines 264-271 and 292-299, after its [id]. *)
Definition build_product (id : string) (body : list (string * value))
  : M Product.t :=
  let name := Value.prop "name" body in
  let description := Value.prop "description" body in
  let price := Value.prop "price" body in
  let category := Value.prop "category" body in
  let inStock := Value.prop "inStock" body in
  let* name := call_trim name in
  let* description := call_trim description in
  let* price := call_parseFloat price in
  let* category := call_trim category in
  ret (Product.mk id name description price category (Value.truthy inStock)).

Definition create_product (body : list (string * value)) : M response :=
  let* id := fresh_uuid in
  let* newProduct := build_product id body in
  let* st := get in
  put {| products := products st ++ [newProduct]; calls := calls st |} ;;
  ret {| status := 201;
         body := Message "Product created successfully" newProduct |}.

(** *** PUT /api/products/:id (lines 282-305) *)

Definition update_product (id : string) (body : list (string * value))
  : M response :=
  let* st := get in
  match Arr.findIndex (fun p => String.eqb (Product.id p) id) (products st) with
  | None => throw (NotFoundError "Product not found")
  | Some productIndex =>
      let* updated := build_product id body in
      put {| products := <[productIndex := updated]> (products st);
             calls := calls st |} ;;
      let* st := get in
      match products st !! productIndex with
      | Some product =>
          ret {| status := 200;
                 body := Message "Product updated successfully" product |}
      | None =>
          ret {| status := 200;
                 body := MessageOnly "Product updated successfully" |}
      end
  end.

(** *** DELETE /api/products/:id (lines 308-322) *)

(** [a.splice(i, 1)]: the removed elements and the array that is left. *)
Definition splice_one {A} (i : nat) (l : list A) : list A * list A :=
  (take 1 (drop i l), delete i l).

Definition delete_product (id : string) : M response :=
  let* st := get in
  match Arr.findIndex (fun p => String.eqb (Product.id p) id) (products st) with
  | None => throw (NotFoundError "Product not found")
  | Some productIndex =>
      let '(removed, rest) := splice_one productIndex (products st) in
      put {| products := rest; calls := calls st |} ;;
      match removed !! 0%nat with
      | Some deletedProduct =>
          ret {| status := 200;
                 body := Message "Product deleted successfully" deletedProduct |}
      | None =>
          ret {| status := 200;
                 body := MessageOnly "Product deleted successfully" |}
      end
  end.

(** *** Routing and the error handler (lines 325-341) *)

Definition route (r : request) : M response :=
  match r with
  | GetProducts query => list_products query
  | GetSearch q => search_products q
  | GetStats => product_stats
  | GetProduct id => get_product id
  | PostProduct apiKey body =>
      authenticateApiKey apiKey ;; validateProduct body ;; create_product body
  | PutProduct id apiKey body =>
      authenticateApiKey apiKey ;; validateProduct body ;;
      update_product id body
  | DeleteProduct id apiKey =>
      authenticateApiKey apiKey ;; delete_product id
  end.

Definition errorHandler (err : error) : response :=
  match err with
  | NotFoundError message =>
      {| status := 404; body := Failure "NotFoundError" message |}
  | ValidationError message =>
      {| status := 400; body := Failure "ValidationError" message |}
  | AuthenticationError message =>
      {| status := 401; body := Failure "AuthenticationError" message |}
  | OtherError =>
      {| status := 500;
         body := Failure "InternalServerError"
                   "Something went wrong on the server" |}
  end.

(** One request served: the response sent and the state left. *)
Definition handle (r : request) (st : state) : response * state :=
  match route r st with
  | (Return res, st') => (res, st')
  | (Throw err, st') => (errorHandler err, st')
  end.

(** The state after a sequence of requests. *)
Definition run (trace : list request) (st : state) : state :=
  fold_left (fun st r => snd (handle r st)) trace st.

End Server.

(** ** Vocabulary of the properties *)

(** [t] is a substring of [s]. *)
Definition occurs (t s : string) : Prop :=
  exists a b, s = a +:+ t +:+ b.

(** The elements of [l] whose index lies in the interval [a, b) of the
    integers; indices outside [l] contribute nothing. *)
Definition window {A} (l : list A) (a b : Z) : list A :=
  take (Z.to_nat b - Z.to_nat a) (drop (Z.to_nat a) l).

(** The ceiling of [n / d] for [d <> 0], by its two bounds. *)
Definition is_ceiling (n d c : Z) : Prop :=
  if 0 <? d then (c - 1) * d < n <= c * d else c * d <= n < (c - 1) * d.

(** The pages and limits for which [slice] finds products between two
    indices the second of which is negative, counting from the end of a
    sequence of [count] products: a negative page with a positive limit, and
    page 1 with a negative limit. *)
Definition wraps (count page limit : Z) : Prop :=
  (0 < limit /\ page < 0 /\ - (page * limit) < count)
  \/ (limit < 0 /\ page = 1 /\ - limit < count).

(** The field constraints of the data model. *)
Record valid_product (p : Product.t) : Prop := {
  valid_name : (2 <= String.length (trim (Product.name p)))%nat;
  valid_description : (5 <= String.length (trim (Product.description p)))%nat;
  valid_price : Double.ltb Double.zero (Product.price p) = true;
  valid_category : (2 <= String.length (trim (Product.category p)))%nat
}.

(** A generator for the examples: the call number [n] returns [uuid-n]. *)
Definition sample_uuid (n : nat) : string :=
  "uuid-" +:+ Double.digits (N.of_nat n).

(** The seed collection under that generator. *)
Definition sample_seed : state := initial sample_uuid.

(** The rules of validation on one field: a text of at least [n] characters
    once trimmed, a number above zero, a boolean. *)
Definition text_ok (n : nat) (v : value) : Prop :=
  exists s, v = VString s /\ (n <= String.length (trim s))%nat.

Definition price_ok (v : value) : Prop :=
  exists x, v = VNumber x /\ Double.ltb Double.zero x = true.

Definition flag_ok (v : value) : Prop :=
  exists b, v = VBool b.

(** The messages of the rules that are flagged, in the order of the list. *)
Definition reported (rules : list (bool * string)) : list string :=
  flat_map (fun r : bool * string => if fst r then [snd r] else []) rules.

(** The payload [{name: "a", price: -5}]. *)
Definition sample_invalid_body : list (string * value) :=
  [("name", VString "a"); ("price", VNumber (Double.of_Z (-5)))].

(** The responses of the authentication middleware. *)
Definition key_required : response :=
  {| status := 401;
     body := Failure "AuthenticationError" "API key is required" |}.

Definition key_invalid : response :=
  {| status := 401;
     body := Failure "AuthenticationError" "Invalid API key" |}.

(** The response of the search without a term. *)
Definition term_required : response :=
  {| status := 400;
     body := Failure "ValidationError"
               ("Search query parameter " +:+ quote +:+ "q" +:+ quote
                +:+ " is required") |}.

(** The answer of the error handler to an error of no class of the
    source, such as the TypeError of a method call on a value that has no
    such method. *)
Definition server_error : response :=
  {| status := 500;
     body := Failure "InternalServerError"
               "Something went wrong on the server" |}.

(** A query parameter that is absent or a string. *)
Definition textual (p : option param) : Prop :=
  match p with
  | Some (PArray _) | Some (PObject _) => False
  | _ => True
  end.

(** A payload that passes validation. *)
Definition sample_valid_body : list (string * value) :=
  [ ("name", VString "  Desk Lamp ");
    ("description", VString "LED lamp with a dimmer");
    ("price", VNumber (Double.literal 2450 2));
    ("category", VString "Furniture");
    ("inStock", VBool false) ].

(** [p] is the record of identifier [id] whose other fields are those of the
    candidate [body], normalized: the texts trimmed, the price parsed. *)
Definition built (id : string) (body : list (string * value)) (p : Product.t)
  : Prop :=
  exists name description price category inStock,
    Value.prop "name" body = VString name /\
    Value.prop "description" body = VString description /\
    Value.prop "price" body = VNumber price /\
    Value.prop "category" body = VString category /\
    Value.prop "inStock" body = VBool inStock /\
    p = Product.mk id (trim name) (trim description)
          (Double.parseFloat price) (trim category) inStock.

(** What one request may do to the state: nothing; append a valid product
    under the identifier of a new call to the generator; replace a product in
    place by a valid one of the same identifier; remove one product. The
    other products keep their order in each case. *)
Inductive change (uuidv4 : nat -> string) (st st' : state) : Prop :=
  | Unchanged :
      st' = st -> change uuidv4 st st'
  | Appended (p : Product.t) :
      valid_product p ->
      Product.id p = uuidv4 (calls st) ->
      st' = {| products := products st ++ [p]; calls := S (calls st) |} ->
      change uuidv4 st st'
  | Replaced (i : nat) (old p : Product.t) :
      products st !! i = Some old ->
      Product.id p = Product.id old ->
      valid_product p ->
      st' = {| products := <[i := p]> (products st); calls := calls st |} ->
      change uuidv4 st st'
  | Removed (i : nat) :
      st' = {| products := delete i (products st); calls := calls st |} ->
      change uuidv4 st st'.

(** A run of create, replace and delete requests, among others. *)
Definition sample_trace : list request :=
  [ PostProduct (Some "your-secret-api-key") sample_valid_body;
    PutProduct (sample_uuid 1) (Some "your-secret-api-key") sample_valid_body;
    PostProduct (Some "your-secret-api-key") sample_invalid_body;
    DeleteProduct (sample_uuid 0) (Some "your-secret-api-key");
    PostProduct None sample_valid_body;
    GetStats ].

(** A payload that passes validation, in the category [constructor]. *)
Definition constructor_body : list (string * value) :=
  [ ("name", VString "Brick Set");
    ("description", VString "A box of bricks");
    ("price", VNumber (Double.literal 1999 2));
    ("category", VString "constructor");
    ("inStock", VBool true) ].

(** The seed collection after that payload was posted with the default
    key. *)
Definition constructor_state : state :=
  snd (handle None sample_uuid
         (PostProduct (Some "your-secret-api-key") constructor_body)
         sample_seed).

(** The number of products of [all] in the category [c]. *)
Definition count_category (c : string) (all : list Product.t) : nat :=
  length (List.filter (fun p => String.eqb (Product.category p) c) all).

(** A numeral in fixed-point notation with exactly two decimals: an optional
    minus sign, at least one digit, a point, two digits. *)
Definition is_digit (c : ascii) : bool :=
  let n := N_of_ascii c in ((48 <=? n) && (n <=? 57))%N.

Fixpoint all_digits (s : string) : bool :=
  match s with
  | EmptyString => true
  | String c r => is_digit c && all_digits r
  end.

Definition two_decimals (s : string) : Prop :=
  exists sign whole d1 d2,
    (sign = EmptyString \/ sign = "-") /\
    whole <> EmptyString /\ all_digits whole = true /\
    is_digit d1 = true /\ is_digit d2 = true /\
    s = sign +:+ whole +:+ "." +:+ String d1 (String d2 EmptyString).

(** A product priced 1e21. *)
Definition costly_product : Product.t :=
  Product.mk (sample_uuid 5) "Space Elevator" "A lift to orbit"
    (Double.of_Z (10 ^ 21)) "Transport" true.

(** ** Vocabulary of the further properties *)

(** The answer to an identifier that no product has. *)
Definition not_found : response :=
  {| status := 404; body := Failure "NotFoundError" "Product not found" |}.

(** No product of [l] has the identifier [id]. *)
Definition no_product (id : string) (l : list Product.t) : Prop :=
  Forall (fun p => Product.id p <> id) l.

(** [p] is the first product of [l] with the identifier [id], at index [i]. *)
Definition first_at (id : string) (l : list Product.t) (i : nat)
    (p : Product.t) : Prop :=
  l !! i = Some p /\ Product.id p = id /\
  forall j q, (j < i)%nat -> l !! j = Some q -> Product.id q <> id.

(** The routes behind [authenticateApiKey], and a request that carries the
    valid key on one of them. *)
Definition mutating (r : request) : bool :=
  match r with
  | PostProduct _ _ | PutProduct _ _ _ | DeleteProduct _ _ => true
  | _ => false
  end.

Definition authorized (API_KEY : option string) (r : request) : Prop :=
  match r with
  | PostProduct apiKey _ | PutProduct _ apiKey _ | DeleteProduct _ apiKey =>
      apiKey = Some (validApiKey API_KEY)
  | _ => False
  end.

(** A request whose query parameters [category], [search], [page], [limit]
    and [q], when present, are strings: each given once, without
    brackets. *)
Definition readable (r : request) : Prop :=
  match r with
  | GetProducts query =>
      textual (Query.category query) /\ textual (Query.search query) /\
      textual (Query.page query) /\ textual (Query.limit query)
  | GetSearch q => textual q
  | _ => True
  end.

(** The products of a listing response. *)
Definition page_of (p : payload) : list Product.t :=
  match p with
  | Listing l _ => l
  | _ => []
  end.

(** The pagination metadata of a listing response. *)
Definition meta_of (p : payload) : option pagination :=
  match p with
  | Listing _ m => Some m
  | _ => None
  end.

(** A stored product sent back as a JSON body. *)
Definition body_of (p : Product.t) : list (string * value) :=
  [ ("name", VString (Product.name p));
    ("description", VString (Product.description p));
    ("price", VNumber (Product.price p));
    ("category", VString (Product.category p));
    ("inStock", VBool (Product.inStock p)) ].

(** The pages 1 to [n] of a sequence by pages of [limit]. *)
Definition pages (l : list Product.t) (limit : Z) (n : nat)
  : list (list Product.t) :=
  map (fun k => page_of (paginate l (Int (Z.of_nat k)) (Int limit))) (seq 1 n).

(** ** Strings: substrings and trimming *)

Section StringFacts.

Lemma append_cons (x : ascii) (a b : string) :
  String x a +:+ b = String x (a +:+ b).
Proof. reflexivity. Qed.

Lemma append_empty (b : string) : EmptyString +:+ b = b.
Proof. reflexivity. Qed.

Lemma prefix_append (t s : string) :
  String.prefix t s = true <-> exists b, s = t +:+ b.
Proof.
  revert s; induction t as [|x t IH]; intros s; cbn [String.prefix].
  - split; [intros _; now exists s | now destruct s].
  - destruct s as [|y s].
    { split; [discriminate | intros [b Hb]; discriminate]. }
    setoid_rewrite append_cons. cbn [String.prefix].
    destruct (ascii_dec x y) as [->|Hne].
    + rewrite IH. split; intros [b Hb]; exists b; congruence.
    + split; [discriminate | intros [b Hb]; congruence].
Qed.

Lemma includes_occurs (s t : string) : includes s t = true <-> occurs t s.
Proof.
  induction s as [|x s IH].
  - cbn [includes]. rewrite orb_false_r, prefix_append. split.
    + intros [b Hb]. exists EmptyString, b. exact Hb.
    + intros [a [b Hab]]. destruct a; [now exists b | discriminate].
  - cbn [includes]. rewrite orb_true_iff, IH, prefix_append. split.
    + intros [[b Hb] | [a [b Hab]]].
      * exists EmptyString, b. exact Hb.
      * exists (String x a), b. rewrite append_cons. now rewrite Hab.
    + intros [a [b Hab]]. destruct a as [|y a].
      * left. now exists b.
      * right. exists a, b. rewrite append_cons in Hab. congruence.
Qed.

Lemma includes_empty (s : string) : includes s EmptyString = true.
Proof. destruct s; reflexivity. Qed.

Lemma nonempty_false (s : string) : nonempty s = false <-> s = EmptyString.
Proof. destruct s; simpl; split; congruence. Qed.

(** A trimmed string neither starts nor ends with white space, so trimming
    it again changes nothing. *)
Lemma trimEnd_idem (s : string) : trimEnd (trimEnd s) = trimEnd s.
Proof.
  induction s as [|c s IH]; [reflexivity |].
  cbn [trimEnd]. destruct (trimEnd s) as [|d r] eqn:E.
  - destruct (is_white c) eqn:W; [reflexivity |].
    cbn [trimEnd]. now rewrite W.
  - cbn [trimEnd] in *. rewrite IH. reflexivity.
Qed.

Lemma trimStart_head (s : string) :
  match trimStart s with
  | EmptyString => True
  | String c _ => is_white c = false
  end.
Proof.
  induction s as [|c s IH]; [exact I |].
  cbn [trimStart]. destruct (is_white c) eqn:W; [exact IH | exact W].
Qed.

Lemma trimStart_trimEnd (s : string) :
  match s with
  | EmptyString => True
  | String c _ => is_white c = false
  end ->
  trimStart (trimEnd s) = trimEnd s.
Proof.
  destruct s as [|c s]; [reflexivity |]. intros W.
  cbn [trimEnd]. destruct (trimEnd s); rewrite ?W; cbn [trimStart];
    now rewrite W.
Qed.

Lemma trim_idem (s : string) : trim (trim s) = trim s.
Proof.
  unfold trim. rewrite trimStart_trimEnd by apply trimStart_head.
  apply trimEnd_idem.
Qed.

End StringFacts.

(** ** The listing: filters (lines 153-174) *)

Section Listing.

Variable API_KEY : option string.
Variable uuidv4 : nat -> string.

Lemma filter_true {A} (l : list A) : List.filter (fun _ => true) l = l.
Proof. induction l as [|x l IH]; cbn; [reflexivity | now rewrite IH]. Qed.

Lemma filter_try_pure {A} (f : A -> bool) (l : list A) :
  filter_try (fun x => Return (f x)) l = Return (List.filter f l).
Proof.
  induction l as [|x l IH]; cbn; [reflexivity |].
  rewrite IH. now destruct (f x).
Qed.

(** The three filters on string parameters as one composition, each with
    the predicate it applies; an absent parameter (and an empty [category]
    or [search]) applies the predicate that keeps everything. *)
Lemma filter_products_stages (category search : option string)
    (page limit inStock : option param) (all : list Product.t) :
  filter_products
    (Query.mk (PString <$> category) (PString <$> search) page limit inStock)
    all =
  Return
    (List.filter
       (fun p => match search with
                 | Some t =>
                     includes (toLowerCase (Product.name p)) (toLowerCase t)
                     || includes (toLowerCase (Product.description p))
                          (toLowerCase t)
                     || includes (toLowerCase (Product.category p))
                          (toLowerCase t)
                 | None => true
                 end)
       (List.filter
          (fun p => match inStock with
                    | Some s => Bool.eqb (Product.inStock p) (Param.is_true s)
                    | None => true
                    end)
          (List.filter
             (fun p => match category with
                       | Some c =>
                           if nonempty c
                           then String.eqb (toLowerCase (Product.category p))
                                           (toLowerCase c)
                           else true
                       | None => true
                       end)
             all))).
Proof.
  unfold filter_products.
  cbn [Query.category Query.search Query.inStock].
  assert (match PString <$> category with
          | Some category0 =>
              if Param.truthy category0
              then filter_try (fun product =>
                     match Param.toLowerCase category0 with
                     | Return lowered =>
                         Return (String.eqb
                                   (toLowerCase (Product.category product))
                                   lowered)
                     | Throw e => Throw e
                     end) all
              else Return all
          | None => Return all
          end
          = Return (List.filter
                      (fun p => match category with
                                | Some c =>
                                    if nonempty c
                                    then String.eqb
                                           (toLowerCase (Product.category p))
                                           (toLowerCase c)
                                    else true
                                | None => true
                                end) all)) as ->.
  { destruct category as [c|]; cbn; [| now rewrite filter_true].
    destruct (nonempty c); [apply filter_try_pure | now rewrite filter_true]. }
  set (kept := List.filter _ all).
  assert (match inStock with
          | Some inStock0 =>
              List.filter (fun product =>
                Bool.eqb (Product.inStock product) (Param.is_true inStock0)) kept
          | None => kept
          end
          = List.filter
              (fun p => match inStock with
                        | Some s => Bool.eqb (Product.inStock p) (Param.is_true s)
                        | None => true
                        end) kept) as ->.
  { destruct inStock; [reflexivity | now rewrite filter_true]. }
  destruct search as [t|]; cbn; [| now rewrite filter_true].
  destruct (nonempty t) eqn:Et; [reflexivity |].
  apply nonempty_false in Et. subst t. f_equal. symmetry.
  erewrite filter_ext; [apply filter_true |].
  intros p. cbn [toLowerCase]. now rewrite includes_empty.
Qed.

Lemma eqb_bool_decide (s t : string) : String.eqb s t = bool_decide (s = t).
Proof.
  destruct (String.eqb_spec s t) as [E|E].
  - now rewrite bool_decide_eq_true_2.
  - now rewrite bool_decide_eq_false_2.
Qed.

Lemma is_true_spec (v : param) :
  Param.is_true v = true <-> v = PString "true".
Proof.
  destruct v as [s| |]; cbn; [| split; discriminate..].
  rewrite String.eqb_eq. split; congruence.
Qed.

(** A category or a search term that is an array or an object, on a
    collection that is not empty, is answered 500. *)
Lemma filter_products_throws (query : Query.t) (all : list Product.t) :
  all <> [] ->
  (exists v, Query.category query = Some v /\ forall s, v <> PString s) ->
  filter_products query all = Throw OtherError.
Proof.
  intros Hall (v & Hv & Hs). unfold filter_products. rewrite Hv.
  destruct v as [s|items|fields]; [now destruct (Hs s) | |];
    destruct all; try congruence; reflexivity.
Qed.

(** The only error of ToString is the TypeError. *)
Lemma toString_error (p : param) (e : error) :
  Param.toString p = Throw e -> e = OtherError.
Proof.
  revert p e. fix IH 1. intros [s|items|fields] e.
  - discriminate.
  - cbn [Param.toString].
    set (each := fix each (l : list param) : outcome (list string) := _).
    assert (forall e', each items = Throw e' -> e' = OtherError) as Heach.
    { clear e. induction items as [|item r IHr]; intros e'; [discriminate |].
      cbn. destruct (Param.toString item) as [s|e0] eqn:E.
      - destruct (each r) as [printed|e1]; [discriminate |].
        intros [= <-]. now apply IHr.
      - intros [= <-]. exact (IH item e0 E). }
    destruct (each items) as [printed|e0]; [discriminate |].
    intros [= <-]. now apply Heach.
  - cbn. destruct (Param.has_own _ _); [now intros [= <-] | discriminate].
Qed.

Lemma parse_param_error (dflt : Z) (p : option param) (e : error) :
  parse_param dflt p = Throw e -> e = OtherError.
Proof.
  destruct p as [v|]; [| discriminate]. cbn.
  destruct (Param.toString v) eqn:E; [discriminate |].
  intros [= <-]. exact (toString_error _ _ E).
Qed.

Lemma list_filter_sublist {A} (f : A -> bool) (l : list A) :
  List.filter f l `sublist_of` l.
Proof.
  induction l as [|x l IH]; cbn; [constructor |].
  destruct (f x); now constructor.
Qed.

Lemma toLowerCase_error (p : param) (e : error) :
  Param.toLowerCase p = Throw e -> e = OtherError.
Proof. destruct p; cbn; [discriminate | now intros [= <-]..]. Qed.

Lemma filter_try_error {A} (f : A -> outcome bool) (l : list A) (e : error) :
  (forall x e', f x = Throw e' -> e' = OtherError) ->
  filter_try f l = Throw e -> e = OtherError.
Proof.
  intros Hf. induction l as [|x l IH]; cbn; [discriminate |].
  destruct (f x) as [b|e'] eqn:E.
  - destruct (filter_try f l); [discriminate |].
    intros [= <-]. now apply IH.
  - intros [= <-]. exact (Hf x e' E).
Qed.

(** The only error of the filters is the TypeError. *)
Lemma filter_products_error (query : Query.t) (all : list Product.t)
    (e : error) :
  filter_products query all = Throw e -> e = OtherError.
Proof.
  unfold filter_products.
  assert (forall kept : list Product.t,
            match Query.search query with
            | Some search =>
                if Param.truthy search
                then
                  match Param.toLowerCase search with
                  | Return searchTerm =>
                      Return
                        (List.filter (fun product =>
                           includes (toLowerCase (Product.name product))
                             searchTerm
                           || includes
                                (toLowerCase (Product.description product))
                                searchTerm
                           || includes
                                (toLowerCase (Product.category product))
                                searchTerm) kept)
                  | Throw e => Throw e
                  end
                else Return kept
            | None => Return kept
            end = Throw e -> e = OtherError) as Hsearch.
  { intros kept. destruct (Query.search query) as [search|]; [| discriminate].
    destruct (Param.truthy search); [| discriminate].
    destruct (Param.toLowerCase search) eqn:El; [discriminate |].
    intros [= <-]. exact (toLowerCase_error _ _ El). }
  destruct (Query.category query) as [category|]; [| apply Hsearch].
  destruct (Param.truthy category); [| apply Hsearch].
  destruct (filter_try _ all) as [kept|e'] eqn:E; [apply Hsearch |].
  intros [= <-]. refine (filter_try_error _ _ _ _ E).
  intros x e0 H. cbv beta in H.
  destruct (Param.toLowerCase category) eqn:El; [discriminate |].
  injection H as <-. exact (toLowerCase_error _ _ El).
Qed.

(** The listing leaves the state alone; it is answered 200 with the page cut
    from the filtered products, or 500. *)
Lemma list_products_cases (query : Query.t) (st : state) :
  (exists filtered pageNum limitNum,
     filter_products query (products st) = Return filtered /\
     parse_param 1 (Query.page query) = Return pageNum /\
     parse_param 10 (Query.limit query) = Return limitNum /\
     handle API_KEY uuidv4 (GetProducts query) st =
       ({| status := 200; body := paginate filtered pageNum limitNum |}, st))
  \/ ((filter_products query (products st) = Throw OtherError \/
       parse_param 1 (Query.page query) = Throw OtherError \/
       parse_param 10 (Query.limit query) = Throw OtherError) /\
      handle API_KEY uuidv4 (GetProducts query) st = (server_error, st)).
Proof.
  unfold handle, route, list_products, bind, get, ret, lift.
  destruct (filter_products query (products st)) as [filtered|e] eqn:Ef.
  - destruct (parse_param 1 (Query.page query)) as [pageNum|e] eqn:Ep.
    + destruct (parse_param 10 (Query.limit query)) as [limitNum|e] eqn:El.
      * left. now exists filtered, pageNum, limitNum.
      * right. rewrite (parse_param_error _ _ _ El). tauto.
    + right. rewrite (parse_param_error _ _ _ Ep). tauto.
  - right. rewrite (filter_products_error _ _ _ Ef). tauto.
Qed.

(** The search leaves the state alone; it is answered 400 without a term,
    200 with a term that is a string, and 500 otherwise. *)
Lemma search_products_cases (q : option param) (st : state) :
  ((q = None \/ q = Some (PString EmptyString)) /\
   handle API_KEY uuidv4 (GetSearch q) st = (term_required, st))
  \/ (exists t results,
        q = Some (PString t) /\ t <> EmptyString /\
        results `sublist_of` products st /\
        handle API_KEY uuidv4 (GetSearch q) st =
          ({| status := 200;
              body := SearchResults (PString t) results (length results) |},
           st))
  \/ (~ textual q /\
      handle API_KEY uuidv4 (GetSearch q) st = (server_error, st)).
Proof.
  destruct q as [[t|items|fields]|].
  - destruct t as [|c t].
    + left. split; [now right | reflexivity].
    + right; left. eexists _, _. split; [reflexivity |].
      split; [discriminate |]. split; [| reflexivity].
      apply list_filter_sublist.
  - right; right. split; [tauto | reflexivity].
  - right; right. split; [tauto | reflexivity].
  - left. split; [now left | reflexivity].
Qed.

Lemma textual_inv (p : option param) :
  textual p -> exists s : option string, p = PString <$> s.
Proof.
  destruct p as [[s|items|fields]|]; cbn; try tauto; intros _.
  - now exists (Some s).
  - now exists None.
Qed.

Lemma parse_param_textual (dflt : Z) (p : option param) :
  textual p -> exists n, parse_param dflt p = Return n.
Proof.
  intros Hp. destruct (textual_inv p Hp) as ([s|] & ->); cbn; eauto.
Qed.

(** A listing whose parameters are strings is answered 200. *)
Lemma list_products_readable (query : Query.t) (st : state) :
  readable (GetProducts query) ->
  exists filtered pageNum limitNum,
    filter_products query (products st) = Return filtered /\
    parse_param 1 (Query.page query) = Return pageNum /\
    parse_param 10 (Query.limit query) = Return limitNum /\
    handle API_KEY uuidv4 (GetProducts query) st =
      ({| status := 200; body := paginate filtered pageNum limitNum |}, st).
Proof.
  intros (Hc & Hs & Hp & Hl).
  destruct (list_products_cases query st) as [H | [[H | [H | H]] _]];
    [exact H | exfalso ..].
  - destruct query as [category search page limit inStock].
    cbn [Query.category Query.search] in Hc, Hs.
    destruct (textual_inv _ Hc) as (c & ->).
    destruct (textual_inv _ Hs) as (t & ->).
    now rewrite filter_products_stages in H.
  - destruct (parse_param_textual 1 _ Hp) as (n & E). congruence.
  - destruct (parse_param_textual 10 _ Hl) as (n & E). congruence.
Qed.

(** C1 (as amended). For a listing whose [category] and [search], when
    present, are strings: it keeps, in the order of the collection, the
    products that pass the category filter (a category that is present and
    not empty: equal to the product's category up to case), then the stock
    filter (a present [inStock]: the product's flag is true exactly when the
    parameter is the string true), then the search filter (a present
    [search]: its lower-case form is a substring of the lower-case name,
    description or category); with a [page] and a [limit] that [parseInt]
    can read, the page is cut from that filtered sequence, and
    [totalProducts] and [totalPages] are computed from it; a [page] or a
    [limit] that cannot be converted to a string is answered 500. *)
Theorem listing_pipeline (category search : option string)
    (page limit inStock : option param) (st : state) :
  exists by_category by_stock by_search : Product.t -> bool,
    (forall p, by_category p = true <->
       forall c, category = Some c -> c <> EmptyString ->
         toLowerCase (Product.category p) = toLowerCase c) /\
    (forall p, by_stock p = true <->
       forall s, inStock = Some s ->
         (Product.inStock p = true <-> s = PString "true")) /\
    (forall p, by_search p = true <->
       forall t, search = Some t ->
         occurs (toLowerCase t) (toLowerCase (Product.name p)) \/
         occurs (toLowerCase t) (toLowerCase (Product.description p)) \/
         occurs (toLowerCase t) (toLowerCase (Product.category p))) /\
    exists filtered,
      filtered =
        List.filter by_search
          (List.filter by_stock (List.filter by_category (products st))) /\
      (forall pageNum limitNum,
        parse_param 1 page = Return pageNum ->
        parse_param 10 limit = Return limitNum ->
        exists shown meta,
          handle API_KEY uuidv4
            (GetProducts
               (Query.mk (PString <$> category) (PString <$> search)
                  page limit inStock)) st =
            ({| status := 200; body := Listing shown meta |}, st) /\
          Listing shown meta = paginate filtered pageNum limitNum /\
          totalProducts meta = length filtered /\
          totalPages meta =
            Num.ceil_div (Z.of_nat (length filtered)) limitNum) /\
      (parse_param 1 page = Throw OtherError \/
       parse_param 10 limit = Throw OtherError ->
       handle API_KEY uuidv4
         (GetProducts
            (Query.mk (PString <$> category) (PString <$> search)
               page limit inStock)) st = (server_error, st)).
Proof.
  eexists _, _, _. split; [|split; [|split]]; cycle 3.
  - eexists. split; [reflexivity |]. split.
    + intros pageNum limitNum Hpage Hlimit.
      eexists _, _.
      unfold handle, route, list_products, bind, get, ret, lift.
      rewrite filter_products_stages.
      cbn [Query.page Query.limit]. rewrite Hpage, Hlimit.
      cbn. repeat split; reflexivity.
    + intros H.
      unfold handle, route, list_products, bind, get, ret, lift.
      rewrite filter_products_stages.
      cbn [Query.page Query.limit].
      destruct H as [-> | H]; [reflexivity |].
      rewrite H. destruct (parse_param 1 page) as [n|e] eqn:E;
        [reflexivity |].
      now rewrite (parse_param_error _ _ _ E).
  - intros p. cbv beta. destruct category as [c|].
    + destruct (nonempty c) eqn:Ec.
      * rewrite String.eqb_eq. split.
        -- intros H c' [= <-] _. exact H.
        -- intros H. apply (H c); [reflexivity |]. now destruct c.
      * apply nonempty_false in Ec. subst c. split; [|reflexivity].
        intros _ c' [= <-] Hc. now destruct Hc.
    + split; [intros _ c' Hc; discriminate | reflexivity].
  - intros p. cbv beta. destruct inStock as [s|].
    + rewrite Bool.eqb_true_iff. split.
      * intros H s' [= <-]. rewrite H. apply is_true_spec.
      * intros H. specialize (H s eq_refl). rewrite <- is_true_spec in H.
        destruct (Product.inStock p), (Param.is_true s); try reflexivity;
          destruct H as [H1 H2];
          [specialize (H1 eq_refl) | specialize (H2 eq_refl)]; discriminate.
    + split; [intros _ s' Hs; discriminate | reflexivity].
  - intros p. cbv beta. destruct search as [t|].
    + rewrite !orb_true_iff, !includes_occurs. split.
      * intros H t' [= <-]. tauto.
      * intros H. specialize (H t eq_refl). tauto.
    + split; [intros _ t' Ht; discriminate | reflexivity].
Qed.

(** C1, counterexamples, on the seed collection.
    [GET /api/products?category=]: the parameter is present (and empty);
    the handler answers with all five products and [totalProducts = 5],
    although none of them has a category equal to the parameter.
    [GET /api/products?category=a&category=b]: the parameter is present (an
    array); the handler answers 500 and no listing at all.
    [GET /api/products?page[toString]=1]: the query parser makes of the
    parameter the object [{ toString: '1' }], which [parseInt] cannot
    convert to a string; the handler answers 500 and no listing at all. *)
Lemma listing_empty_category_keeps_all :
  fst (handle None sample_uuid
         (GetProducts
            (Query.mk (Some (PString EmptyString)) None None None None))
         sample_seed) =
    {| status := 200;
       body := Listing (products sample_seed)
                 {| currentPage := Int 1; totalPages := QInt 1;
                    totalProducts := 5; hasNext := false;
                    hasPrev := false |} |}
  /\ List.filter
       (fun p => String.eqb (toLowerCase (Product.category p))
                            (toLowerCase EmptyString))
       (products sample_seed) = []
  /\ length (products sample_seed) = 5%nat
  /\ fst (handle None sample_uuid
            (GetProducts
               (Query.mk (Some (PArray [PString "a"; PString "b"]))
                  None None None None))
            sample_seed) =
       {| status := 500;
          body := Failure "InternalServerError"
                    "Something went wrong on the server" |}
  /\ fst (handle None sample_uuid
            (GetProducts
               (Query.mk None None
                  (Some (PObject [("toString", PString "1")])) None None))
            sample_seed) =
       {| status := 500;
          body := Failure "InternalServerError"
                    "Something went wrong on the server" |}.
Proof. repeat split. Qed.

End Listing.

(** ** The listing: pagination (lines 176-193) *)

Section Pagination.

Variable API_KEY : option string.
Variable uuidv4 : nat -> string.

(** With both indices non-negative, [slice] is the window of the indices
    between them. *)
Lemma slice_window {A} (l : list A) (a b : Z) :
  0 <= a -> 0 <= b -> Arr.slice l (Int a) (Int b) = window l a b.
Proof.
  intros Ha Hb. unfold Arr.slice, window, Arr.relative.
  destruct (Z.ltb_spec a 0) as [|_]; [lia |].
  destruct (Z.ltb_spec b 0) as [|_]; [lia |].
  destruct (Z.le_gt_cases (Z.of_nat (length l)) a) as [Hlen|Hlen].
  - rewrite (Z.min_r a) by lia.
    rewrite !drop_ge by lia. now rewrite !take_nil.
  - rewrite (Z.min_l a) by lia.
    destruct (Z.le_gt_cases b (Z.of_nat (length l))) as [Hb'|Hb'].
    + rewrite (Z.min_l b) by lia. f_equal. lia.
    + rewrite (Z.min_r b) by lia.
      rewrite !take_ge; [reflexivity | |]; rewrite length_drop; lia.
Qed.

Lemma ceil_div_ceiling (n d : Z) :
  d <> 0 -> exists c, Num.ceil_div n (Int d) = QInt c /\ is_ceiling n d c.
Proof.
  intros Hd. exists (- (- n / d)). split.
  - unfold Num.ceil_div. destruct d; [lia | reflexivity | reflexivity].
  - unfold is_ceiling. pose proof (Z.div_mod (- n) d Hd) as E.
    destruct (Z.ltb_spec 0 d) as [Hpos|Hneg].
    + pose proof (Z.mod_pos_bound (- n) d Hpos). nia.
    + assert (d < 0) as Hlt by lia.
      pose proof (Z.mod_neg_bound (- n) d Hlt). nia.
Qed.

(** The number of products [slice] returns. *)
Lemma slice_length {A} (l : list A) (a b : number) :
  length (Arr.slice l a b) =
    Nat.min (Z.to_nat (Arr.relative (Z.of_nat (length l)) b
                       - Arr.relative (Z.of_nat (length l)) a))
            (length l - Z.to_nat (Arr.relative (Z.of_nat (length l)) a)).
Proof. unfold Arr.slice. now rewrite length_take, length_drop. Qed.

(** Two indices of which one is negative, outside the cases of [wraps]:
    [slice] finds nothing, and no index lies between them. *)
Lemma slice_outside (l : list Product.t) (page limit : Z) :
  ~ wraps (Z.of_nat (length l)) page limit ->
  (page - 1) * limit < 0 \/ page * limit < 0 ->
  Arr.slice l (Int ((page - 1) * limit)) (Int (page * limit)) = []
  /\ window l ((page - 1) * limit) (page * limit) = [].
Proof.
  intros Hno Hneg. unfold wraps in Hno.
  assert (page * limit <= 0) as He.
  { destruct (Z.lt_trichotomy limit 0) as [Hl|[->|Hl]]; [| lia |];
      destruct (Z.lt_trichotomy page 1) as [Hp|[->|Hp]]; nia. }
  assert ((limit > 0 /\ page <= 0) \/ (limit < 0 /\ 1 <= page)) as Hsign.
  { destruct (Z.lt_trichotomy limit 0) as [Hl|[->|Hl]]; [| lia |];
      destruct (Z.lt_trichotomy page 1) as [Hp|[->|Hp]]; nia. }
  split.
  - apply length_zero_iff_nil. rewrite slice_length. unfold Arr.relative.
    destruct (Z.ltb_spec ((page - 1) * limit) 0),
             (Z.ltb_spec (page * limit) 0);
      destruct Hsign as [[Hl Hp]|[Hl Hp]];
      try (assert (page = 1 \/ 2 <= page) as [->|Hp'] by lia);
      try (assert (page = 0 \/ page < 0) as [->|Hp'] by lia);
      nia.
  - unfold window. apply length_zero_iff_nil. rewrite length_take. lia.
Qed.

(** In the cases of [wraps], [slice] finds products although no index lies
    between the two. *)
Lemma slice_wraps (l : list Product.t) (page limit : Z) :
  wraps (Z.of_nat (length l)) page limit ->
  Arr.slice l (Int ((page - 1) * limit)) (Int (page * limit)) <> []
  /\ window l ((page - 1) * limit) (page * limit) = [].
Proof.
  intros Hw. unfold wraps in Hw. split.
  - intros E. apply (f_equal length) in E. rewrite slice_length in E.
    cbn [length] in E. unfold Arr.relative in E.
    destruct (Z.ltb_spec ((page - 1) * limit) 0),
             (Z.ltb_spec (page * limit) 0); nia.
  - unfold window. apply length_zero_iff_nil. rewrite length_take. nia.
Qed.

(** C2 (as amended). For every integer [page] and [limit] the listing
    reports [currentPage = page], [totalProducts] the filtered count,
    [hasNext = (page*limit < count)], [hasPrev = ((page-1)*limit > 0)] and
    [totalPages] the ceiling of [count / limit] as the source computes it (for
    [limit = 0] that quotient is an infinity, or NaN when the count is 0 as
    well). The page holds the products whose index lies between
    [(page-1)*limit] and [page*limit], an empty page when there is none,
    except in the cases of [wraps], where [slice] counts a negative index
    from the end and returns products. With five products, [limit = 2] and
    [page = 3] the page is one product, [hasNext] false, [hasPrev] true and
    three pages. *)
Theorem paginate_window (l : list Product.t) (page limit : Z) :
  exists shown meta,
    paginate l (Int page) (Int limit) = Listing shown meta /\
    currentPage meta = Int page /\
    totalProducts meta = length l /\
    hasNext meta = (page * limit <? Z.of_nat (length l)) /\
    hasPrev meta = (0 <? (page - 1) * limit) /\
    (limit <> 0 ->
     exists c, totalPages meta = QInt c /\
               is_ceiling (Z.of_nat (length l)) limit c) /\
    (limit = 0 ->
     totalPages meta = if Z.of_nat (length l) =? 0 then QNaN else QInfinity) /\
    (~ wraps (Z.of_nat (length l)) page limit ->
     shown = window l ((page - 1) * limit) (page * limit)) /\
    (wraps (Z.of_nat (length l)) page limit ->
     shown <> [] /\ window l ((page - 1) * limit) (page * limit) = []) /\
    (length l = 5%nat -> page = 3 -> limit = 2 ->
     exists p, shown = [p] /\
               hasNext meta = false /\ hasPrev meta = true /\
               totalPages meta = QInt 3).
Proof.
  eexists _, _. split; [reflexivity |].
  cbn [currentPage totalProducts hasNext hasPrev totalPages
       Num.sub Num.mul Num.lt Num.gt].
  split; [reflexivity |]. split; [reflexivity |]. split; [reflexivity |].
  split; [reflexivity |]. split; [now apply ceil_div_ceiling |].
  split; [now intros -> |].
  split; [| split].
  - intros Hno.
    destruct (Z.lt_ge_cases ((page - 1) * limit) 0) as [Hs|Hs].
    + destruct (slice_outside l page limit Hno) as [-> ->]; [lia | reflexivity].
    + destruct (Z.lt_ge_cases (page * limit) 0) as [He|He].
      * destruct (slice_outside l page limit Hno) as [-> ->];
          [lia | reflexivity].
      * now apply slice_window.
  - apply slice_wraps.
  - intros Hlen -> ->.
    do 5 (destruct l as [|? l]; [discriminate |]).
    destruct l; [| discriminate]. eexists. repeat split.
Qed.

(** C2, counterexamples, on the five seed products.
    [GET /api/products?page=-1&limit=2]: the indices are -4 and -2; no
    product has an index between them, yet the handler returns two products
    (the second and the third), since [slice] counts a negative index from
    the end.
    [GET /api/products?page=1&limit=-2]: the indices are 0 and -2; no
    product has an index between them, yet the handler returns the first
    three products. *)
Lemma paginate_negative_page :
  window (products sample_seed) ((-1 - 1) * 2) (-1 * 2) = []
  /\ fst (handle None sample_uuid
            (GetProducts
               (Query.mk None None (Some (PString "-1")) (Some (PString "2"))
                  None))
            sample_seed) =
       {| status := 200;
          body := Listing (take 2 (drop 1 (products sample_seed)))
                    {| currentPage := Int (-1); totalPages := QInt 3;
                       totalProducts := 5; hasNext := true;
                       hasPrev := false |} |}
  /\ length (take 2 (drop 1 (products sample_seed))) = 2%nat
  /\ window (products sample_seed) ((1 - 1) * -2) (1 * -2) = []
  /\ fst (handle None sample_uuid
            (GetProducts
               (Query.mk None None (Some (PString "1")) (Some (PString "-2"))
                  None))
            sample_seed) =
       {| status := 200;
          body := Listing (take 3 (products sample_seed))
                    {| currentPage := Int 1; totalPages := QInt (-2);
                       totalProducts := 5; hasNext := true;
                       hasPrev := false |} |}
  /\ length (take 3 (products sample_seed)) = 3%nat.
Proof. repeat split. Qed.

(** C3, the code at the failing inputs. On the seed collection,
    [?page=abc] gives an empty page whose [currentPage] is NaN, not the
    first page, and [?limit=abc] gives an empty page whose [totalPages] is
    NaN, not a page of ten; with both absent the defaults 1 and 10 give
    the five products on one page. *)
Theorem listing_non_numeric :
  fst (handle API_KEY uuidv4
         (GetProducts (Query.mk None None (Some (PString "abc")) None None))
         (initial uuidv4)) =
    {| status := 200;
       body := Listing []
                 {| currentPage := NaN; totalPages := QInt 1;
                    totalProducts := 5; hasNext := false;
                    hasPrev := false |} |}
  /\ fst (handle API_KEY uuidv4
            (GetProducts (Query.mk None None None (Some (PString "abc")) None))
            (initial uuidv4)) =
       {| status := 200;
          body := Listing []
                    {| currentPage := Int 1; totalPages := QNaN;
                       totalProducts := 5; hasNext := false;
                       hasPrev := false |} |}
  /\ fst (handle API_KEY uuidv4
            (GetProducts (Query.mk None None None None None))
            (initial uuidv4)) =
       {| status := 200;
          body := Listing (products (initial uuidv4))
                    {| currentPage := Int 1; totalPages := QInt 1;
                       totalProducts := 5; hasNext := false;
                       hasPrev := false |} |}.
Proof. repeat split. Qed.

End Pagination.


(** ** Validation (lines 102-131) *)

Section Validation.

Lemma bad_text_spec (n : nat) (v : value) :
  (0 < n)%nat -> bad_text n v = true <-> ~ text_ok n v.
Proof.
  intros Hn. unfold bad_text, text_ok.
  destruct v as [| |b|x|s|l|l]; cbn -[Nat.ltb];
    try (split; [intros _ (s' & E & _); discriminate
                | intros _; try reflexivity;
                  apply orb_true_iff; left; apply orb_true_r]).
  rewrite orb_false_r. split.
  - intros H (s' & [= <-] & Hlen). apply orb_true_iff in H as [H|H].
    + destruct s; [cbn in Hlen; lia | discriminate].
    + apply Nat.ltb_lt in H. lia.
  - intros H. destruct (Nat.ltb_spec (String.length (trim s)) n) as [|Hge].
    + apply orb_true_r.
    + destruct H. now exists s.
Qed.

Lemma bad_price_spec (v : value) : bad_price v = true <-> ~ price_ok v.
Proof.
  unfold bad_price, price_ok.
  destruct v as [| |b|x|s|l|l]; cbn;
    try (split; [intros _ (x' & E & _); discriminate
                | intros _; try reflexivity;
                  apply orb_true_iff; left; apply orb_true_r]).
  rewrite orb_false_r. split.
  - intros H (x' & [= <-] & Hpos). destruct x as [s|s| |s m e]; try destruct s;
      discriminate.
  - intros H. destruct x as [s|s| |s m e]; try destruct s; try reflexivity;
      destruct H; eexists; split; reflexivity.
Qed.

Lemma bad_flag_spec (v : value) :
  negb (String.eqb (Value.typeof v) "boolean") = true <-> ~ flag_ok v.
Proof.
  unfold flag_ok. destruct v as [| |b|x|s|l|l]; cbn;
    try (split; [intros _ (b' & E); discriminate | intros _; reflexivity]).
  split; [discriminate | intros H; destruct H; now exists b].
Qed.

(** C4. Each of the five rules is checked whatever the others give; the
    [errors] array holds the message of every violated rule, and only those,
    in the order name, description, price, category, inStock; validation
    fails exactly when one is violated, with the messages joined into one
    ValidationError. For [{name: "a", price: -5}] the message lists all five
    rules. *)
Theorem validation_accumulates (body : list (string * value)) (st : state) :
  exists v1 v2 v3 v4 v5 : bool,
    (v1 = true <-> ~ text_ok 2 (Value.prop "name" body)) /\
    (v2 = true <-> ~ text_ok 5 (Value.prop "description" body)) /\
    (v3 = true <-> ~ price_ok (Value.prop "price" body)) /\
    (v4 = true <-> ~ text_ok 2 (Value.prop "category" body)) /\
    (v5 = true <-> ~ flag_ok (Value.prop "inStock" body)) /\
    validation_errors body =
      reported
        [ (v1, "Name is required and must be at least 2 characters");
          (v2, "Description is required and must be at least 5 characters");
          (v3, "Price is required and must be a positive number");
          (v4, "Category is required and must be at least 2 characters");
          (v5, "inStock is required and must be a boolean value") ] /\
    validateProduct body st =
      (if v1 || v2 || v3 || v4 || v5
       then Throw (ValidationError
                     ("Validation failed: "
                      +:+ join ", " (validation_errors body)))
       else Return tt, st) /\
    validateProduct sample_invalid_body st =
      (Throw (ValidationError
         "Validation failed: Name is required and must be at least 2 characters, Description is required and must be at least 5 characters, Price is required and must be a positive number, Category is required and must be at least 2 characters, inStock is required and must be a boolean value"),
       st).
Proof.
  exists (bad_text 2 (Value.prop "name" body)),
         (bad_text 5 (Value.prop "description" body)),
         (bad_price (Value.prop "price" body)),
         (bad_text 2 (Value.prop "category" body)),
         (negb (String.eqb (Value.typeof (Value.prop "inStock" body)) "boolean")).
  split; [apply bad_text_spec; lia |].
  split; [apply bad_text_spec; lia |].
  split; [apply bad_price_spec |].
  split; [apply bad_text_spec; lia |].
  split; [apply bad_flag_spec |].
  unfold validateProduct, validation_errors.
  split; [| split; [| reflexivity]].
  - destruct (bad_text 2 _), (bad_text 5 _), (bad_price _), (bad_text 2 _),
      (negb _); reflexivity.
  - destruct (bad_text 2 _), (bad_text 5 _), (bad_price _), (bad_text 2 _),
      (negb _); reflexivity.
Qed.

End Validation.


(** ** Authentication (lines 86-99) before the handlers *)

Section Authentication.

Variable API_KEY : option string.
Variable uuidv4 : nat -> string.

Lemma validApiKey_nonempty : validApiKey API_KEY <> EmptyString.
Proof.
  unfold validApiKey. destruct API_KEY as [k|]; [| discriminate].
  destruct (nonempty k) eqn:E; [| discriminate].
  intros ->. discriminate.
Qed.

(** What the middleware does with each header. *)
Lemma authenticate_cases (apiKey : option string) (st : state) :
  authenticateApiKey API_KEY apiKey st =
    match apiKey with
    | None => (Throw (AuthenticationError "API key is required"), st)
    | Some k =>
        if decide (k = EmptyString)
        then (Throw (AuthenticationError "API key is required"), st)
        else if decide (k = validApiKey API_KEY)
        then (Return tt, st)
        else (Throw (AuthenticationError "Invalid API key"), st)
    end.
Proof.
  unfold authenticateApiKey. destruct apiKey as [k|]; [| reflexivity].
  destruct (decide (k = EmptyString)) as [->|Hk]; [reflexivity |].
  destruct k as [|c k]; [congruence |]. cbn [nonempty negb].
  destruct (String.eqb_spec (String c k) (validApiKey API_KEY)) as [E|E];
    destruct (decide (String c k = validApiKey API_KEY)); try congruence;
    reflexivity.
Qed.

(** C9 (as amended). A POST whose [x-api-key] header is absent or empty is
    answered 401 with the AuthenticationError message that the key is
    required; a header that is present, not empty and different from the
    valid key is answered 401 with the message that the key is invalid; in
    both cases the state, hence the collection, is unchanged. *)
Theorem post_unauthenticated (apiKey : option string)
    (body : list (string * value)) (st : state) :
  (apiKey = None \/ apiKey = Some EmptyString ->
   handle API_KEY uuidv4 (PostProduct apiKey body) st = (key_required, st)) /\
  (forall k, apiKey = Some k -> k <> EmptyString -> k <> validApiKey API_KEY ->
   handle API_KEY uuidv4 (PostProduct apiKey body) st = (key_invalid, st)).
Proof.
  unfold handle, route, bind. rewrite authenticate_cases. split.
  - intros [-> | ->]; reflexivity.
  - intros k -> Hk Hv. repeat case_decide; try congruence. reflexivity.
Qed.

(** C9, counterexample: a POST with the header [x-api-key] present and
    empty. The key differs from the valid one, and the answer is that the
    key is required, not that it is invalid. *)
Lemma post_empty_key_is_required :
  Some EmptyString <> Some (validApiKey None)
  /\ fst (handle None sample_uuid (PostProduct (Some EmptyString) [])
            sample_seed) = key_required
  /\ key_required <> key_invalid.
Proof. repeat split; discriminate. Qed.

(** C10. A POST or a PUT whose key is missing or wrong is answered 401
    with an AuthenticationError whatever its body: the response and the
    state are those of the same request with any other body, so the
    validator has no part in them, and the state is unchanged. *)
Theorem authentication_precedes_validation (apiKey : option string)
    (id : string) (body : list (string * value)) (st : state) :
  apiKey <> Some (validApiKey API_KEY) ->
  (exists message,
     handle API_KEY uuidv4 (PostProduct apiKey body) st =
       ({| status := 401; body := Failure "AuthenticationError" message |}, st)
     /\ handle API_KEY uuidv4 (PutProduct id apiKey body) st =
         ({| status := 401; body := Failure "AuthenticationError" message |}, st))
  /\ (forall body',
       handle API_KEY uuidv4 (PostProduct apiKey body) st =
         handle API_KEY uuidv4 (PostProduct apiKey body') st
       /\ handle API_KEY uuidv4 (PutProduct id apiKey body) st =
           handle API_KEY uuidv4 (PutProduct id apiKey body') st).
Proof.
  intros Hkey. unfold handle, route, bind. rewrite authenticate_cases.
  destruct apiKey as [k|].
  - destruct (decide (k = EmptyString)); [split; [eexists; split | intros body'; split]; reflexivity |].
    destruct (decide (k = validApiKey API_KEY)) as [->|]; [congruence |].
    split; [eexists; split | intros body'; split]; reflexivity.
  - split; [eexists; split | intros body'; split]; reflexivity.
Qed.

End Authentication.

(** A request without a key, and with the payload that breaks all five
    rules. *)
Lemma authentication_precedes_validation_witness :
  None <> Some (validApiKey None)
  /\ exists message,
       handle None sample_uuid (PostProduct None sample_invalid_body)
         sample_seed
       = ({| status := 401; body := Failure "AuthenticationError" message |},
          sample_seed)
       /\ handle None sample_uuid
            (PutProduct (sample_uuid 0) None sample_invalid_body) sample_seed
          = ({| status := 401; body := Failure "AuthenticationError" message |},
             sample_seed).
Proof.
  assert (None <> Some (validApiKey None)) as Hkey by discriminate.
  split; [exact Hkey |].
  exact (proj1 (authentication_precedes_validation None sample_uuid None
                  (sample_uuid 0) sample_invalid_body sample_seed Hkey)).
Defined.


(** ** The search (lines 197-215) *)

Section Search.

Variable API_KEY : option string.
Variable uuidv4 : nat -> string.

(** C7, the code on every term. Without a term, or with an empty one, the
    search fails with a ValidationError (400); with a term that is a string
    it returns all the products, in the order of the collection and on one
    page, whose lower-case name or description contains the lower-case term,
    with their count; the state is left alone. The category is not matched:
    on the seed collection the term kitchen finds nothing although one
    product is in the category Kitchen, and the term LAPTOP finds the
    product named Gaming Laptop. With a term that is an array or an object
    (a repeated or bracketed key) the test [!q] lets it through, the call
    [q.toLowerCase()] fails and the answer is 500, neither a ValidationError
    nor the matching products: so is [?q=a&q=b] answered on the seed
    collection. *)
Theorem search_by_name_or_description (q : option param) (st : state) :
  (q = None \/ q = Some (PString EmptyString) ->
   handle API_KEY uuidv4 (GetSearch q) st = (term_required, st)) /\
  (forall t, q = Some (PString t) -> t <> EmptyString ->
   exists matches : Product.t -> bool,
     (forall p, matches p = true <->
        occurs (toLowerCase t) (toLowerCase (Product.name p)) \/
        occurs (toLowerCase t) (toLowerCase (Product.description p))) /\
     handle API_KEY uuidv4 (GetSearch q) st =
       ({| status := 200;
           body := SearchResults (PString t)
                     (List.filter matches (products st))
                     (length (List.filter matches (products st))) |}, st)) /\
  (~ textual q ->
   handle API_KEY uuidv4 (GetSearch q) st = (server_error, st)) /\
  fst (handle API_KEY uuidv4 (GetSearch (Some (PString "kitchen")))
         (initial uuidv4)) =
    {| status := 200; body := SearchResults (PString "kitchen") [] 0 |} /\
  fst (handle API_KEY uuidv4 (GetSearch (Some (PString "LAPTOP")))
         (initial uuidv4)) =
    {| status := 200;
       body := SearchResults (PString "LAPTOP")
                 (take 1 (products (initial uuidv4))) 1 |} /\
  fst (handle API_KEY uuidv4
         (GetSearch (Some (PArray [PString "a"; PString "b"])))
         (initial uuidv4)) =
    {| status := 500;
       body := Failure "InternalServerError"
                 "Something went wrong on the server" |}.
Proof.
  split; [| split; [| split; [| repeat split]]].
  - intros [-> | ->]; reflexivity.
  - intros t -> Ht.
    exists (fun p => includes (toLowerCase (Product.name p)) (toLowerCase t)
                     || includes (toLowerCase (Product.description p))
                          (toLowerCase t)).
    split.
    + intros p. now rewrite orb_true_iff, !includes_occurs.
    + destruct t; [congruence | reflexivity].
  - destruct q as [[t|items|fields]|]; cbn [textual]; try tauto;
      intros _; reflexivity.
Qed.

End Search.


(** ** The collection under create, replace and delete (lines 261-322) *)

Section Store.

Variable API_KEY : option string.
Variable uuidv4 : nat -> string.

Lemma findIndex_Some {A} (f : A -> bool) (l : list A) (i : nat) :
  Arr.findIndex f l = Some i ->
  exists x, l !! i = Some x /\ f x = true /\
            forall j y, (j < i)%nat -> l !! j = Some y -> f y = false.
Proof.
  revert i; induction l as [|a l IH]; intros i; cbn [Arr.findIndex];
    [discriminate |].
  destruct (f a) eqn:Fa.
  - intros [= <-]. exists a. repeat split; [assumption | lia].
  - destruct (Arr.findIndex f l) as [k|]; [| discriminate].
    intros [= <-]. destruct (IH k eq_refl) as (x & Hx & Fx & Hfirst).
    exists x. repeat split; [assumption.. |].
    intros [|j] y Hj Hy; [now injection Hy as <- |].
    apply (Hfirst j); [lia | exact Hy].
Qed.

Lemma findIndex_None {A} (f : A -> bool) (l : list A) :
  Arr.findIndex f l = None <-> Forall (fun x => f x = false) l.
Proof.
  induction l as [|a l IH]; cbn [Arr.findIndex].
  - split; [constructor | reflexivity].
  - rewrite Forall_cons. destruct (f a).
    + split; [discriminate | intros [? _]; discriminate].
    + destruct (Arr.findIndex f l); cbn.
      * split; [discriminate | intros [_ H]; apply IH in H; discriminate].
      * split; [intros _; split; [reflexivity | now apply IH] | reflexivity].
Qed.

Lemma find_findIndex {A} (f : A -> bool) (l : list A) :
  Arr.find f l = Arr.findIndex f l ≫= (l !!.).
Proof.
  induction l as [|a l IH]; cbn [Arr.find Arr.findIndex]; [reflexivity |].
  destruct (f a); [reflexivity |]. rewrite IH.
  now destruct (Arr.findIndex f l).
Qed.

Lemma good_text (n : nat) (v : value) : bad_text n v = false -> text_ok n v.
Proof.
  unfold bad_text. intros H.
  apply orb_false_iff in H as [H Hlen]. apply orb_false_iff in H as [_ Hty].
  destruct v as [| |?|?|s|?|?]; try discriminate Hty.
  exists s. split; [reflexivity |]. now apply Nat.ltb_ge in Hlen.
Qed.

Lemma good_price (v : value) : bad_price v = false -> price_ok v.
Proof.
  unfold bad_price. intros H.
  apply orb_false_iff in H as [H Hle]. apply orb_false_iff in H as [Hnz Hty].
  destruct v as [| |?|x|?|?|?]; try discriminate Hty.
  exists x. split; [reflexivity |].
  destruct x as [?|[|]| |[|] m e]; try discriminate; reflexivity.
Qed.

Lemma good_flag (v : value) :
  negb (String.eqb (Value.typeof v) "boolean") = false -> flag_ok v.
Proof. destruct v as [| |b|?|?|?|?]; try discriminate. now exists b. Qed.

(** A body with no validation error has its five fields of the expected
    types and within the bounds. *)
Lemma validation_errors_nil (body : list (string * value)) :
  validation_errors body = [] ->
  text_ok 2 (Value.prop "name" body) /\
  text_ok 5 (Value.prop "description" body) /\
  price_ok (Value.prop "price" body) /\
  text_ok 2 (Value.prop "category" body) /\
  flag_ok (Value.prop "inStock" body).
Proof.
  unfold validation_errors, push_if.
  destruct (bad_text 2 (Value.prop "name" body)) eqn:E1;
    destruct (bad_text 5 (Value.prop "description" body)) eqn:E2;
    destruct (bad_price (Value.prop "price" body)) eqn:E3;
    destruct (bad_text 2 (Value.prop "category" body)) eqn:E4;
    destruct (negb (String.eqb (Value.typeof (Value.prop "inStock" body))
                      "boolean")) eqn:E5;
    try discriminate.
  intros _.
  split; [now apply good_text |]. split; [now apply good_text |].
  split; [now apply good_price |]. split; [now apply good_text |].
  now apply good_flag.
Qed.

Lemma validateProduct_cases (body : list (string * value)) (st : state) :
  (validation_errors body = [] /\ validateProduct body st = (Return tt, st))
  \/ exists message,
       validateProduct body st = (Throw (ValidationError message), st).
Proof.
  unfold validateProduct. destruct (validation_errors body) as [|m l].
  - left. split; reflexivity.
  - right. eexists. reflexivity.
Qed.

Lemma trimmed_valid (n : nat) (s : string) :
  (n <= String.length (trim s))%nat ->
  (n <= String.length (trim (trim s)))%nat.
Proof. now rewrite trim_idem. Qed.

(** The record built from a body that has passed validation. *)
Lemma build_validated (body : list (string * value)) (id : string) :
  validation_errors body = [] ->
  exists p, built id body p /\ valid_product p /\ Product.id p = id /\
            forall st, build_product id body st = (Return p, st).
Proof.
  intros H. apply validation_errors_nil in H
    as ((name & En & Hn) & (description & Ed & Hd) & (price & Ep & Hp)
        & (category & Ec & Hc) & (inStock & Es)).
  eexists. split; [| split; [| split]]; cycle 3.
  - intros st. unfold build_product, bind, call_trim, call_parseFloat, ret.
    rewrite En, Ed, Ep, Ec, Es. cbn. reflexivity.
  - exists name, description, price, category, inStock. now repeat split.
  - split; cbn; try now apply trimmed_valid.
    destruct price as [?|[|]| |[|] m e]; try discriminate; reflexivity.
  - reflexivity.
Qed.

Lemma authenticated_or_not (apiKey : option string) (st : state) :
  (apiKey = Some (validApiKey API_KEY)
   /\ authenticateApiKey API_KEY apiKey st = (Return tt, st))
  \/ (apiKey <> Some (validApiKey API_KEY)
      /\ exists message,
           authenticateApiKey API_KEY apiKey st =
             (Throw (AuthenticationError message), st)).
Proof.
  rewrite authenticate_cases. destruct apiKey as [k|].
  - destruct (decide (k = EmptyString)) as [->|].
    + right. split; [| eexists; reflexivity].
      intros [= E]. now apply (validApiKey_nonempty API_KEY).
    + destruct (decide (k = validApiKey API_KEY)) as [->|].
      * left. split; reflexivity.
      * right. split; [congruence | eexists; reflexivity].
  - right. split; [discriminate | eexists; reflexivity].
Qed.

(** An authenticated POST of a valid body appends the record built from it
    under the identifier of a new call to the generator. *)
Lemma post_accepted (body : list (string * value)) (st : state) :
  validation_errors body = [] ->
  exists p,
    built (uuidv4 (calls st)) body p /\ valid_product p /\
    Product.id p = uuidv4 (calls st) /\
    handle API_KEY uuidv4 (PostProduct (Some (validApiKey API_KEY)) body) st =
      ({| status := 201; body := Message "Product created successfully" p |},
       {| products := products st ++ [p]; calls := S (calls st) |}).
Proof.
  intros Hv.
  destruct (build_validated body (uuidv4 (calls st)) Hv)
    as (p & Hb & Hp & Hid & Hrun).
  exists p. split; [exact Hb |]. split; [exact Hp |]. split; [exact Hid |].
  unfold handle, route, bind.
  destruct (authenticated_or_not (Some (validApiKey API_KEY)) st)
    as [[_ ->] | [Hne _]]; [| congruence].
  unfold validateProduct. rewrite Hv. cbn.
  unfold create_product, bind, fresh_uuid. rewrite Hrun. reflexivity.
Qed.

(** An authenticated PUT of a valid body: not found when no product has the
    identifier, and otherwise the first product with it is replaced by the
    record built from the body. *)
Lemma put_accepted (id : string) (body : list (string * value)) (st : state) :
  validation_errors body = [] ->
  match Arr.findIndex (fun p => String.eqb (Product.id p) id) (products st) with
  | None =>
      handle API_KEY uuidv4 (PutProduct id (Some (validApiKey API_KEY)) body) st
      = ({| status := 404; body := Failure "NotFoundError" "Product not found" |},
         st)
  | Some i =>
      exists p,
        built id body p /\ valid_product p /\ Product.id p = id /\
        handle API_KEY uuidv4 (PutProduct id (Some (validApiKey API_KEY)) body) st
        = ({| status := 200;
              body := Message "Product updated successfully" p |},
           {| products := <[i := p]> (products st); calls := calls st |})
  end.
Proof.
  intros Hv.
  destruct (build_validated body id Hv) as (p & Hb & Hp & Hid & Hrun).
  unfold handle, route, bind.
  destruct (authenticated_or_not (Some (validApiKey API_KEY)) st)
    as [[_ ->] | [Hne _]]; [| congruence].
  unfold validateProduct. rewrite Hv. cbn.
  unfold update_product, bind, get.
  destruct (Arr.findIndex _ (products st)) as [i|] eqn:Ei; [| reflexivity].
  exists p. split; [exact Hb |]. split; [exact Hp |]. split; [exact Hid |].
  rewrite Hrun. cbn.
  apply findIndex_Some in Ei as (old & Hold & _).
  rewrite list_lookup_insert_eq by (eapply lookup_lt_Some; exact Hold).
  reflexivity.
Qed.

(** Every request changes the state in one of the four ways of [change]. *)
Lemma handle_change (r : request) (st : state) :
  change uuidv4 st (snd (handle API_KEY uuidv4 r st)).
Proof.
  destruct r as [query|q| |id|apiKey body|id apiKey body|id apiKey].
  - apply Unchanged.
    destruct (list_products_cases API_KEY uuidv4 query st)
      as [(? & ? & ? & _ & _ & _ & ->) | [_ ->]]; reflexivity.
  - apply Unchanged.
    destruct (search_products_cases API_KEY uuidv4 q st)
      as [[_ ->] | [(? & ? & _ & _ & _ & ->) | [_ ->]]]; reflexivity.
  - now apply Unchanged.
  - apply Unchanged. unfold handle, route, get_product, bind, get.
    cbn. now destruct (Arr.find _ _).
  - destruct (authenticated_or_not apiKey st) as [[-> Ha] | [_ [m Ha]]].
    + destruct (validateProduct_cases body st) as [[Hv Hb] | [m Hb]].
      * destruct (post_accepted body st Hv) as (p & _ & Hp & Hid & ->).
        apply (Appended uuidv4 st _ p Hp Hid). reflexivity.
      * apply Unchanged. unfold handle, route, bind. now rewrite Ha, Hb.
    + apply Unchanged. unfold handle, route, bind. now rewrite Ha.
  - destruct (authenticated_or_not apiKey st) as [[-> Ha] | [_ [m Ha]]].
    + destruct (validateProduct_cases body st) as [[Hv Hb] | [m Hb]].
      * pose proof (put_accepted id body st Hv) as H.
        destruct (Arr.findIndex _ (products st)) as [i|] eqn:Ei.
        -- destruct H as (p & _ & Hp & Hid & ->).
           apply findIndex_Some in Ei as (old & Hold & Heq & _).
           cbv beta in Heq. apply String.eqb_eq in Heq.
           apply (Replaced uuidv4 st _ i old p Hold); [congruence | exact Hp |].
           reflexivity.
        -- rewrite H. now apply Unchanged.
      * apply Unchanged. unfold handle, route, bind. now rewrite Ha, Hb.
    + apply Unchanged. unfold handle, route, bind. now rewrite Ha.
  - destruct (authenticated_or_not apiKey st) as [[-> Ha] | [_ [m Ha]]].
    + unfold handle, route, bind. rewrite Ha.
      unfold delete_product, bind, get.
      destruct (Arr.findIndex _ (products st)) as [i|] eqn:Ei.
      * cbn. destruct (take 1 (drop i (products st)) !! 0%nat);
          apply (Removed uuidv4 st _ i); reflexivity.
      * now apply Unchanged.
    + apply Unchanged. unfold handle, route, bind. now rewrite Ha.
Qed.

Lemma generated_prefix (n m : nat) :
  (n <= m)%nat -> (uuidv4 <$> seq 0 n) `sublist_of` (uuidv4 <$> seq 0 m).
Proof.
  intros H. replace m with (n + (m - n))%nat by lia.
  rewrite seq_app, fmap_app. now apply sublist_inserts_r.
Qed.

(** Each kind of change keeps the products valid and their identifiers in
    the order in which the generator gave them. *)
Lemma change_preserves (st st' : state) :
  change uuidv4 st st' ->
  Forall valid_product (products st) ->
  (Product.id <$> products st) `sublist_of` (uuidv4 <$> seq 0 (calls st)) ->
  Forall valid_product (products st') /\
  (Product.id <$> products st') `sublist_of` (uuidv4 <$> seq 0 (calls st')) /\
  (calls st' <= S (calls st))%nat.
Proof.
  intros [-> | p Hp Hid -> | i old p Hold Hid Hp -> | i ->] Hvalid Hsub;
    cbn [products calls].
  - repeat split; [assumption.. | lia].
  - repeat split; [| | lia].
    + apply Forall_app. split; [assumption |].
      constructor; [exact Hp | constructor].
    + rewrite fmap_app, seq_S, fmap_app. cbn. rewrite Hid.
      now apply sublist_app.
  - repeat split; [| | lia].
    + now apply Forall_insert.
    + rewrite list_fmap_insert, Hid, list_insert_id; [assumption |].
      now rewrite list_lookup_fmap, Hold.
  - repeat split; [| | lia].
    + now apply Forall_delete.
    + rewrite list_fmap_delete. etransitivity; [apply sublist_delete | assumption].
Qed.

Lemma run_preserves (trace : list request) (st : state) :
  Forall valid_product (products st) ->
  (Product.id <$> products st) `sublist_of` (uuidv4 <$> seq 0 (calls st)) ->
  Forall valid_product (products (run API_KEY uuidv4 trace st)) /\
  (Product.id <$> products (run API_KEY uuidv4 trace st))
    `sublist_of` (uuidv4 <$> seq 0 (calls (run API_KEY uuidv4 trace st))) /\
  (calls (run API_KEY uuidv4 trace st) <= calls st + length trace)%nat.
Proof.
  revert st; induction trace as [|r trace IH]; intros st Hvalid Hsub.
  - cbn. repeat split; [assumption.. | lia].
  - destruct (change_preserves st _ (handle_change r st) Hvalid Hsub)
      as (Hvalid' & Hsub' & Hcalls).
    destruct (IH _ Hvalid' Hsub') as (Hv & Hs & Hc).
    change (run API_KEY uuidv4 (r :: trace) st)
      with (run API_KEY uuidv4 trace (snd (handle API_KEY uuidv4 r st))).
    cbn [length]. repeat split; [assumption.. | lia].
Qed.

Lemma initial_valid : Forall valid_product (products (initial uuidv4)).
Proof. repeat constructor; cbn; lia. Qed.

(** C5. After any sequence of requests from the seed collection, provided
    the identifiers the generator has given so far are distinct: every
    stored product satisfies the field constraints (its [inStock] is a
    boolean by its type), the identifiers in the collection are distinct, the
    products stand in the order in which their identifiers were generated,
    and a further request only appends at the end, replaces in place or
    removes one product. *)
Theorem collection_invariant (trace : list request) :
  NoDup (uuidv4 <$> seq 0 (5 + length trace)) ->
  Forall valid_product (products (run API_KEY uuidv4 trace (initial uuidv4))) /\
  NoDup (Product.id <$> products (run API_KEY uuidv4 trace (initial uuidv4))) /\
  (Product.id <$> products (run API_KEY uuidv4 trace (initial uuidv4)))
    `sublist_of`
    (uuidv4 <$> seq 0 (calls (run API_KEY uuidv4 trace (initial uuidv4)))) /\
  forall r,
    change uuidv4 (run API_KEY uuidv4 trace (initial uuidv4))
      (snd (handle API_KEY uuidv4 r (run API_KEY uuidv4 trace (initial uuidv4)))).
Proof.
  intros Hfresh.
  destruct (run_preserves trace (initial uuidv4) initial_valid)
    as (Hvalid & Hsub & Hcalls); [reflexivity |].
  repeat split; [assumption | | assumption | intros r; apply handle_change].
  refine (sublist_NoDup _ _ _ Hsub).
  refine (sublist_NoDup _ _ Hfresh _).
  apply generated_prefix. cbn in Hcalls. lia.
Qed.

Lemma findIndex_insert {A} (f : A -> bool) (l : list A) (i : nat) (x : A) :
  Arr.findIndex f l = Some i -> f x = true ->
  Arr.findIndex f (<[i := x]> l) = Some i.
Proof.
  revert i; induction l as [|a l IH]; intros i; cbn [Arr.findIndex];
    [discriminate |].
  destruct (f a) eqn:Fa.
  - intros [= <-] Fx. cbn. now rewrite Fx.
  - destruct (Arr.findIndex f l) as [k|] eqn:Ek; [| discriminate].
    intros [= <-] Fx.
    change (<[S k := x]> (a :: l)) with (a :: <[k := x]> l).
    cbn [Arr.findIndex]. now rewrite Fa, (IH k eq_refl Fx).
Qed.

(** C6. An authenticated PUT of a valid candidate: when no product has the
    identifier the answer is NotFound (404) and the state is unchanged;
    when one has, the first such record is overwritten by the record of the
    same identifier built from the normalized candidate, at the same
    position, the other positions and the length of the collection are
    unchanged, the updated record is returned, and a GET of the identifier
    afterwards returns it. *)
Theorem replace_in_place (id : string) (body : list (string * value))
    (st : state) :
  validation_errors body = [] ->
  let put :=
    handle API_KEY uuidv4 (PutProduct id (Some (validApiKey API_KEY)) body) st in
  (Forall (fun p => Product.id p <> id) (products st) ->
   put = ({| status := 404;
             body := Failure "NotFoundError" "Product not found" |}, st)) /\
  (Exists (fun p => Product.id p = id) (products st) ->
   exists i old p,
     products st !! i = Some old /\ Product.id old = id /\
     (forall j earlier, (j < i)%nat -> products st !! j = Some earlier ->
                        Product.id earlier <> id) /\
     built id body p /\
     put = ({| status := 200;
               body := Message "Product updated successfully" p |},
            {| products := <[i := p]> (products st); calls := calls st |}) /\
     length (products (snd put)) = length (products st) /\
     (forall j, j <> i -> products (snd put) !! j = products st !! j) /\
     products (snd put) !! i = Some p /\
     fst (handle API_KEY uuidv4 (GetProduct id) (snd put)) =
       {| status := 200; body := OneProduct p |}).
Proof.
  intros Hv put. pose proof (put_accepted id body st Hv) as H. fold put in H.
  split.
  - intros Hnone.
    assert (Arr.findIndex (fun p => String.eqb (Product.id p) id) (products st)
            = None) as E.
    { apply findIndex_None. eapply Forall_impl; [exact Hnone |].
      intros p Hp. now apply String.eqb_neq. }
    now rewrite E in H.
  - intros Hsome.
    destruct (Arr.findIndex _ (products st)) as [i|] eqn:Ei.
    + destruct H as (p & Hb & _ & Hid & Hput).
      pose proof (findIndex_insert _ _ _ p Ei) as Hfind.
      apply findIndex_Some in Ei as (old & Hold & Heq & Hfirst).
      cbv beta in Heq. apply String.eqb_eq in Heq.
      assert (i < length (products st))%nat as Hi
        by (eapply lookup_lt_Some; exact Hold).
      exists i, old, p. rewrite Hput. cbn [snd products].
      split; [exact Hold |]. split; [exact Heq |].
      split.
      { intros j earlier Hj He. apply String.eqb_neq. now apply (Hfirst j). }
      split; [exact Hb |]. split; [reflexivity |].
      split; [apply length_insert |].
      split; [intros j Hj; now apply list_lookup_insert_ne |].
      split; [now apply list_lookup_insert_eq |].
      unfold handle, route, get_product, bind, get. cbn [products].
      rewrite find_findIndex, Hfind by (rewrite Hid; apply String.eqb_refl).
      cbn. now rewrite list_lookup_insert_eq.
    + apply findIndex_None in Ei. apply Exists_exists in Hsome as (p & Hin & Hp).
      rewrite Forall_forall in Ei. specialize (Ei p Hin). cbv beta in Ei.
      apply String.eqb_neq in Ei. contradiction.
Qed.

End Store.

(** The sample run: two creations (one refused), a replacement, a removal. *)
Lemma collection_invariant_witness :
  NoDup (sample_uuid <$> seq 0 (5 + length sample_trace)) /\
  Forall valid_product (products (run None sample_uuid sample_trace sample_seed)) /\
  NoDup (Product.id <$> products (run None sample_uuid sample_trace sample_seed)) /\
  length (products (run None sample_uuid sample_trace sample_seed)) = 5%nat.
Proof.
  assert (NoDup (sample_uuid <$> seq 0 (5 + length sample_trace))) as Hfresh.
  { apply (bool_decide_unpack _). vm_compute. exact I. }
  split; [exact Hfresh |].
  destruct (collection_invariant None sample_uuid sample_trace Hfresh)
    as (Hvalid & Hnodup & _).
  repeat split; assumption.
Defined.

(** A replacement of the second seed product. *)
Lemma replace_in_place_witness :
  validation_errors sample_valid_body = [] /\
  exists i p,
    built (sample_uuid 1) sample_valid_body p /\
    products
      (snd (handle None sample_uuid
              (PutProduct (sample_uuid 1) (Some (validApiKey None))
                 sample_valid_body) sample_seed)) !! i = Some p /\
    fst (handle None sample_uuid (GetProduct (sample_uuid 1))
           (snd (handle None sample_uuid
                   (PutProduct (sample_uuid 1) (Some (validApiKey None))
                      sample_valid_body) sample_seed))) =
      {| status := 200; body := OneProduct p |}.
Proof.
  split; [reflexivity |].
  destruct (replace_in_place None sample_uuid (sample_uuid 1) sample_valid_body
              sample_seed eq_refl) as [_ H].
  destruct H as (i & old & p & _ & _ & _ & Hb & _ & _ & _ & Hi & Hget).
  { apply Exists_cons_tl, Exists_cons_hd. reflexivity. }
  exists i, p. split; [exact Hb |]. split; [exact Hi | exact Hget].
Defined.


(** ** Statistics (lines 218-246) *)

Section Statistics.

(** One turn of the loop on a category that is not inherited. *)
Lemma stats_step_regular (m : gmap string number) (t : spec_float)
    (p : Product.t) :
  Product.category p ∉ Obj.Object_prototype ->
  fst (stats_step (m, t) p) =
    <[Product.category p :=
        match m !! Product.category p with
        | Some (Int z) => if z =? 0 then Int 1 else Int (z + 1)
        | Some (Inf s) => Inf s
        | _ => Int 1
        end]> m.
Proof.
  intros Hp.
  assert (String.eqb (Product.category p) "__proto__" = false) as Hproto.
  { apply String.eqb_neq. intros E. apply Hp. rewrite E.
    unfold Obj.Object_prototype. rewrite !elem_of_cons. tauto. }
  unfold stats_step, Obj.get, Obj.set. rewrite Hproto.
  destruct (m !! Product.category p) as [[|s|z]|]; cbn.
  - reflexivity.
  - reflexivity.
  - now destruct (z =? 0).
  - rewrite bool_decide_eq_false_2 by exact Hp. reflexivity.
Qed.

Lemma count_category_snoc (c : string) (done : list Product.t) (p : Product.t) :
  count_category c (done ++ [p]) =
    (count_category c done
     + if String.eqb (Product.category p) c then 1 else 0)%nat.
Proof.
  unfold count_category. rewrite List.filter_app, length_app. cbn.
  now destruct (String.eqb (Product.category p) c).
Qed.

(** The counts by category while no category is a property name that object
    literals inherit. *)
Lemma stats_fold_regular (rest done : list Product.t)
    (m : gmap string number) (t : spec_float) :
  Forall (fun p => Product.category p ∉ Obj.Object_prototype) rest ->
  (forall c, m !! c =
     if (count_category c done =? 0)%nat then None
     else Some (Int (Z.of_nat (count_category c done)))) ->
  forall c, fst (fold_left stats_step rest (m, t)) !! c =
    if (count_category c (done ++ rest) =? 0)%nat then None
    else Some (Int (Z.of_nat (count_category c (done ++ rest)))).
Proof.
  revert done m t; induction rest as [|p rest IH]; intros done m t Hreg Hm c.
  - cbn. rewrite app_nil_r. apply Hm.
  - apply Forall_cons in Hreg as [Hp Hreg].
    replace (done ++ p :: rest) with ((done ++ [p]) ++ rest)
      by now rewrite <- app_assoc.
    cbn [fold_left].
    destruct (stats_step (m, t) p) as [m' t'] eqn:Estep.
    apply IH; [exact Hreg |]. clear c IH. intros c.
    pose proof (stats_step_regular m t p Hp) as Hm'.
    rewrite Estep in Hm'. cbn [fst] in Hm'. subst m'.
    rewrite count_category_snoc.
    destruct (String.eqb_spec (Product.category p) c) as [<-|Hc].
    + rewrite lookup_insert_eq, Hm.
      destruct (Nat.eqb_spec (count_category (Product.category p) done) 0)
        as [->|Hn]; [reflexivity |].
      destruct (Nat.eqb_spec (count_category (Product.category p) done + 1) 0);
        [lia |].
      destruct (Z.eqb_spec (Z.of_nat (count_category (Product.category p) done)) 0);
        [lia |].
      do 2 f_equal. lia.
    + rewrite lookup_insert_ne, Hm, Nat.add_0_r by exact Hc. reflexivity.
Qed.

(** The statistics of a collection none of whose categories is an inherited
    property name: the three counts, and for each category the number of its
    products (no entry for a category without product); the empty collection
    has the average 0, an empty mapping and the total 0.00. *)
Lemma stats_regular (all : list Product.t) :
  Forall (fun p => Product.category p ∉ Obj.Object_prototype) all ->
  Stats.totalProducts (compute_stats all) = length all /\
  Stats.inStockCount (compute_stats all) =
    length (List.filter Product.inStock all) /\
  (Stats.inStockCount (compute_stats all)
   + Stats.outOfStockCount (compute_stats all) = length all)%nat /\
  (forall c, Stats.categoryCounts (compute_stats all) !! c =
     if (count_category c all =? 0)%nat then None
     else Some (Int (Z.of_nat (count_category c all)))) /\
  compute_stats [] =
    Stats.mk 0 0 0 ∅ AverageZero (Double.Fixed "0.00").
Proof.
  intros Hreg. unfold compute_stats.
  pose proof (stats_fold_regular all [] ∅ Double.zero Hreg) as Hfold.
  destruct (fold_left stats_step all (∅, Double.zero)) as [m t].
  cbn [Stats.totalProducts Stats.inStockCount Stats.outOfStockCount
       Stats.categoryCounts].
  split; [reflexivity |]. split; [reflexivity |].
  split; [| split; [| reflexivity]].
  - clear. induction all as [|p all IH]; [reflexivity |].
    cbn. destruct (Product.inStock p); cbn; lia.
  - apply Hfold. intros c. reflexivity.
Qed.

(** C8, the code at the failing input: the seed collection after a valid
    POST of a product in the category [constructor]. That category has one
    product, and [categoryCounts] maps it to NaN: the first read finds the
    function that every object literal inherits under that name, and the
    increment of a function is NaN. The other categories are counted. *)
Theorem stats_inherited_category :
  fst (handle None sample_uuid
         (PostProduct (Some "your-secret-api-key") constructor_body)
         sample_seed) =
    {| status := 201;
       body := Message "Product created successfully"
                 (Product.mk (sample_uuid 5) "Brick Set" "A box of bricks"
                    (Double.literal 1999 2) "constructor" true) |}
  /\ count_category "constructor" (products constructor_state) = 1%nat
  /\ Stats.categoryCounts (compute_stats (products constructor_state))
       !! "constructor" = Some NaN
  /\ Stats.categoryCounts (compute_stats (products constructor_state))
       !! "Electronics" = Some (Int 3)
  /\ Stats.totalProducts (compute_stats (products constructor_state)) = 6%nat.
Proof. repeat split; vm_compute; reflexivity. Qed.

(** *** The format of [toFixed(2)] *)

Lemma all_digits_app (a b : string) :
  all_digits (a +:+ b) = all_digits a && all_digits b.
Proof.
  induction a as [|c a IH]; [reflexivity |].
  rewrite append_cons. cbn [all_digits]. now rewrite IH, andb_assoc.
Qed.

Lemma length_app_string (a b : string) :
  String.length (a +:+ b) = (String.length a + String.length b)%nat.
Proof.
  induction a as [|c a IH]; [reflexivity |].
  rewrite append_cons. cbn [String.length]. now rewrite IH.
Qed.

Lemma digits_of_uint (d : Decimal.uint) :
  all_digits (NilEmpty.string_of_uint d) = true.
Proof. induction d; cbn; auto. Qed.

Lemma digits_all (n : N) :
  all_digits (Double.digits n) = true /\ Double.digits n <> EmptyString.
Proof.
  unfold Double.digits, NilZero.string_of_uint.
  destruct (N.to_uint n) eqn:E; try (split; [| discriminate]);
    try reflexivity; rewrite <- E; cbn [NilEmpty.string_of_uint];
    rewrite E; apply (digits_of_uint (_ _)).
Qed.

Lemma zeros_all (k : nat) :
  all_digits (Double.zeros k) = true /\ String.length (Double.zeros k) = k.
Proof. induction k as [|k [IH1 IH2]]; cbn; auto. Qed.

Lemma substring_all (a b : nat) (s : string) :
  all_digits s = true -> all_digits (String.substring a b s) = true.
Proof.
  revert a b; induction s as [|c s IH]; intros a b H.
  - now destruct a, b.
  - cbn [all_digits] in H. apply andb_true_iff in H as [Hc Hs].
    destruct a as [|a]; [destruct b as [|b]; [reflexivity |] |].
    + cbn [String.substring all_digits]. now rewrite Hc, IH.
    + cbn [String.substring]. now apply IH.
Qed.

Lemma substring_length (a b : nat) (s : string) :
  (a + b <= String.length s)%nat ->
  String.length (String.substring a b s) = b.
Proof.
  revert a b; induction s as [|c s IH]; intros a b H; cbn [String.length] in H.
  - destruct a, b; cbn in *; lia.
  - destruct a as [|a]; [destruct b as [|b]; [reflexivity |] |].
    + cbn [String.substring String.length]. rewrite IH; lia.
    + cbn [String.substring]. apply IH. lia.
Qed.

(** The digits with a point before the last two. *)
Lemma point_two (n : N) :
  exists whole d1 d2,
    whole <> EmptyString /\ all_digits whole = true /\
    is_digit d1 = true /\ is_digit d2 = true /\
    Double.point 2 n = whole +:+ "." +:+ String d1 (String d2 EmptyString).
Proof.
  unfold Double.point.
  destruct (digits_all n) as [Hd Hne].
  set (m := if (String.length (Double.digits n) <=? 2)%nat
            then Double.zeros (2 + 1 - String.length (Double.digits n))
                 +:+ Double.digits n
            else Double.digits n).
  assert (all_digits m = true /\ (3 <= String.length m)%nat) as [Hm Hlen].
  { subst m. destruct (Nat.leb_spec (String.length (Double.digits n)) 2).
    - rewrite all_digits_app, length_app_string.
      destruct (zeros_all (2 + 1 - String.length (Double.digits n))) as [-> ->].
      split; [exact Hd | lia].
    - split; [exact Hd | lia]. }
  pose proof (substring_all 0 (String.length m - 2) m Hm) as Hw.
  pose proof (substring_length 0 (String.length m - 2) m ltac:(lia)) as Hwl.
  pose proof (substring_all (String.length m - 2) 2 m Hm) as Hf.
  pose proof (substring_length (String.length m - 2) 2 m ltac:(lia)) as Hfl.
  destruct (String.substring (String.length m - 2) 2 m) as [|d1 [|d2 [|? ?]]];
    try discriminate Hfl.
  cbn [all_digits] in Hf. apply andb_true_iff in Hf as [H1 Hf].
  apply andb_true_iff in Hf as [H2 _].
  exists (String.substring 0 (String.length m - 2) m), d1, d2.
  split; [| auto].
  intros E. rewrite E in Hwl. cbn in Hwl. lia.
Qed.

(** Whenever [toFixed(2)] answers in fixed-point notation, which it does for
    every finite value below 10^21, the numeral has exactly two decimals. *)
Lemma toFixed_two_decimals (x : spec_float) (s : string) :
  Double.toFixed 2 x = Double.Fixed s -> two_decimals s.
Proof.
  unfold Double.toFixed.
  destruct x as [z|i| |sg m e]; try discriminate.
  - intros E. replace s with (Double.point 2 0) by congruence.
    destruct (point_two 0) as (w & d1 & d2 & H1 & H2 & H3 & H4 & ->).
    exists EmptyString, w, d1, d2. auto 10.
  - destruct (Double.large m e); [discriminate |]. intros E.
    replace s with ((if sg then "-" else EmptyString)
                    +:+ Double.point 2 (Double.scaled 2 m e)) by congruence.
    destruct (point_two (Double.scaled 2 m e))
      as (w & d1 & d2 & H1 & H2 & H3 & H4 & ->).
    exists (if sg then "-" else EmptyString), w, d1, d2.
    destruct sg; auto 10.
Qed.

(** A value of 10^21 or more is not printed in fixed-point notation: a
    collection whose prices sum to 1e21 has no two-decimal [totalValue]. *)
Lemma stats_total_beyond_fixed :
  Stats.totalValue (compute_stats [costly_product]) =
    Double.NumberToString (Double.of_Z (10 ^ 21)).
Proof. vm_compute. reflexivity. Qed.

End Statistics.


(** ** Further properties of the catalogue routes (lines 249-322) *)

Section Catalogue.

Variable API_KEY : option string.
Variable uuidv4 : nat -> string.

Lemma findIndex_first {A} (f : A -> bool) (l : list A) (i : nat) (x : A) :
  l !! i = Some x -> f x = true ->
  (forall j y, (j < i)%nat -> l !! j = Some y -> f y = false) ->
  Arr.findIndex f l = Some i.
Proof.
  revert i; induction l as [|a l IH]; intros i Hx Fx Hfirst; [discriminate |].
  cbn [Arr.findIndex]. destruct i as [|i].
  - injection Hx as ->. now rewrite Fx.
  - rewrite (Hfirst 0%nat a) by (lia || reflexivity).
    rewrite (IH i Hx Fx); [reflexivity |].
    intros j y Hj Hy. apply (Hfirst (S j)); [lia | exact Hy].
Qed.

Lemma findIndex_no_product (id : string) (l : list Product.t) :
  Arr.findIndex (fun p => String.eqb (Product.id p) id) l = None <->
  no_product id l.
Proof.
  rewrite findIndex_None. unfold no_product. apply Forall_iff.
  intros p. apply String.eqb_neq.
Qed.

Lemma findIndex_first_at (id : string) (l : list Product.t) (i : nat) :
  Arr.findIndex (fun p => String.eqb (Product.id p) id) l = Some i <->
  exists p, first_at id l i p.
Proof.
  split.
  - intros H. apply findIndex_Some in H as (p & Hp & Heq & Hfirst).
    exists p. split; [exact Hp |]. split; [now apply String.eqb_eq |].
    intros j q Hj Hq. apply String.eqb_neq. now apply (Hfirst j).
  - intros (p & Hp & Hid & Hfirst). apply (findIndex_first _ _ _ p Hp).
    + now apply String.eqb_eq.
    + intros j q Hj Hq. apply String.eqb_neq. now apply (Hfirst j).
Qed.

Lemma first_at_unique (id : string) (l : list Product.t) (i j : nat)
    (p q : Product.t) :
  first_at id l i p -> first_at id l j q -> i = j /\ p = q.
Proof.
  intros Hp Hq.
  assert (Some i = Some j) as [= <-].
  { etransitivity; [symmetry |]; apply findIndex_first_at; eauto. }
  destruct Hp as [Hp _], Hq as [Hq _]. split; congruence.
Qed.

(** A product is found or none has the identifier. *)
Lemma first_at_or_none (id : string) (l : list Product.t) :
  no_product id l \/ exists i p, first_at id l i p.
Proof.
  destruct (Arr.findIndex (fun p => String.eqb (Product.id p) id) l)
    as [i|] eqn:E.
  - right. exists i. now apply findIndex_first_at.
  - left. now apply findIndex_no_product.
Qed.

Lemma get_product_run (id : string) (st : state) :
  handle API_KEY uuidv4 (GetProduct id) st =
    (match Arr.findIndex (fun p => String.eqb (Product.id p) id) (products st)
             ≫= (products st !!.) with
     | Some p => {| status := 200; body := OneProduct p |}
     | None => not_found
     end, st).
Proof.
  unfold handle, route, get_product, bind, get. rewrite find_findIndex.
  now destruct (Arr.findIndex _ _ ≫= _).
Qed.

Lemma get_missing (id : string) (st : state) :
  no_product id (products st) ->
  handle API_KEY uuidv4 (GetProduct id) st = (not_found, st).
Proof.
  intros H. rewrite get_product_run.
  apply findIndex_no_product in H. now rewrite H.
Qed.

Lemma get_found (id : string) (st : state) (i : nat) (p : Product.t) :
  first_at id (products st) i p ->
  handle API_KEY uuidv4 (GetProduct id) st =
    ({| status := 200; body := OneProduct p |}, st).
Proof.
  intros H. rewrite get_product_run. pose proof H as [Hp _].
  assert (exists q, first_at id (products st) i q) as E by eauto.
  apply findIndex_first_at in E. rewrite E. cbn. now rewrite Hp.
Qed.

(** X1. A GET by identifier answers NotFound (404) when no product has the
    identifier, and otherwise 200 with the first product of the collection
    that has it; the state is unchanged either way. *)
Theorem get_product_cases (id : string) (st : state) :
  (no_product id (products st) ->
   handle API_KEY uuidv4 (GetProduct id) st = (not_found, st)) /\
  (forall i p, first_at id (products st) i p ->
   handle API_KEY uuidv4 (GetProduct id) st =
     ({| status := 200; body := OneProduct p |}, st)) /\
  (no_product id (products st) \/ exists i p, first_at id (products st) i p).
Proof.
  split; [apply get_missing |]. split; [apply get_found |].
  apply first_at_or_none.
Qed.

(** An authenticated DELETE: not found when no product has the identifier,
    and otherwise the first product with it is spliced out and returned. *)
Lemma delete_accepted (id : string) (st : state) :
  match Arr.findIndex (fun p => String.eqb (Product.id p) id) (products st) with
  | None =>
      handle API_KEY uuidv4 (DeleteProduct id (Some (validApiKey API_KEY))) st
      = (not_found, st)
  | Some i =>
      exists p,
        products st !! i = Some p /\
        handle API_KEY uuidv4 (DeleteProduct id (Some (validApiKey API_KEY))) st
        = ({| status := 200;
              body := Message "Product deleted successfully" p |},
           {| products := delete i (products st); calls := calls st |})
  end.
Proof.
  unfold handle, route, bind.
  destruct (authenticated_or_not API_KEY (Some (validApiKey API_KEY)) st)
    as [[_ ->] | [Hne _]]; [| congruence].
  unfold delete_product, bind, get.
  destruct (Arr.findIndex _ (products st)) as [i|] eqn:Ei; [| reflexivity].
  apply findIndex_Some in Ei as (p & Hp & _).
  exists p. split; [exact Hp |]. cbn.
  rewrite lookup_take_lt, lookup_drop, Nat.add_0_r, Hp by lia. reflexivity.
Qed.

Lemma first_at_appended (l : list Product.t) (p : Product.t) :
  no_product (Product.id p) l -> first_at (Product.id p) (l ++ [p]) (length l) p.
Proof.
  intros Hnone. split; [now apply list_lookup_middle |]. split; [reflexivity |].
  intros j q Hj Hq. rewrite lookup_app_l in Hq by exact Hj.
  apply list_elem_of_lookup_2 in Hq. unfold no_product in Hnone.
  rewrite Forall_forall in Hnone. now apply Hnone.
Qed.

(** X2. Insert then look up: after an accepted POST (valid key, valid body)
    whose new identifier no stored product has, the response is 201 with the
    record built from the normalized body, the collection is the old one with
    that record appended, and a GET by the new identifier returns it. *)
Theorem post_then_get (body : list (string * value)) (st : state) :
  validation_errors body = [] ->
  no_product (uuidv4 (calls st)) (products st) ->
  exists p,
    built (uuidv4 (calls st)) body p /\
    fst (handle API_KEY uuidv4 (PostProduct (Some (validApiKey API_KEY)) body) st)
    = {| status := 201; body := Message "Product created successfully" p |} /\
    products
      (snd (handle API_KEY uuidv4
              (PostProduct (Some (validApiKey API_KEY)) body) st))
    = products st ++ [p] /\
    fst (handle API_KEY uuidv4 (GetProduct (uuidv4 (calls st)))
           (snd (handle API_KEY uuidv4
                   (PostProduct (Some (validApiKey API_KEY)) body) st)))
    = {| status := 200; body := OneProduct p |}.
Proof.
  intros Hv Hfresh.
  destruct (post_accepted API_KEY uuidv4 body st Hv) as (p & Hb & _ & Hid & ->).
  exists p. split; [exact Hb |]. split; [reflexivity |]. split; [reflexivity |].
  cbn [snd]. rewrite <- Hid in Hfresh |- *.
  erewrite get_found; [reflexivity |]. now apply first_at_appended.
Qed.

(** X3. Insert then remove: after an accepted POST whose new identifier no
    stored product has, an authenticated DELETE of that identifier answers
    200 with the created record and leaves the collection as it was before
    the POST. *)
Theorem post_then_delete (body : list (string * value)) (st : state) :
  validation_errors body = [] ->
  no_product (uuidv4 (calls st)) (products st) ->
  exists p,
    built (uuidv4 (calls st)) body p /\
    fst (handle API_KEY uuidv4
           (DeleteProduct (uuidv4 (calls st)) (Some (validApiKey API_KEY)))
           (snd (handle API_KEY uuidv4
                   (PostProduct (Some (validApiKey API_KEY)) body) st)))
    = {| status := 200; body := Message "Product deleted successfully" p |} /\
    products
      (snd (handle API_KEY uuidv4
              (DeleteProduct (uuidv4 (calls st)) (Some (validApiKey API_KEY)))
              (snd (handle API_KEY uuidv4
                      (PostProduct (Some (validApiKey API_KEY)) body) st))))
    = products st.
Proof.
  intros Hv Hfresh.
  destruct (post_accepted API_KEY uuidv4 body st Hv) as (p & Hb & _ & Hid & ->).
  exists p. split; [exact Hb |]. cbn [snd].
  rewrite <- Hid in Hfresh |- *.
  pose proof (first_at_appended _ _ Hfresh) as Hat.
  pose proof (delete_accepted (Product.id p)
                {| products := products st ++ [p]; calls := S (calls st) |}) as H.
  cbn [products calls] in H.
  assert (Arr.findIndex (fun q => String.eqb (Product.id q) (Product.id p))
            (products st ++ [p]) = Some (length (products st))) as E
    by (apply findIndex_first_at; eauto).
  rewrite E in H. destruct H as (q & Hq & ->).
  destruct Hat as [Hp _]. assert (q = p) as -> by congruence.
  split; [reflexivity |]. cbn [snd products].
  now rewrite delete_middle, app_nil_r.
Qed.

(** X4. A POST or a PUT that carries the valid key and a body with at least
    one violated rule is answered 400 with the ValidationError that joins
    the messages, and the state is unchanged: nothing is stored and no
    identifier is drawn. *)
Theorem validation_refused (id : string) (body : list (string * value))
    (st : state) :
  validation_errors body <> [] ->
  handle API_KEY uuidv4 (PostProduct (Some (validApiKey API_KEY)) body) st
  = ({| status := 400;
        body := Failure "ValidationError"
                  ("Validation failed: " +:+ join ", " (validation_errors body)) |},
     st)
  /\ handle API_KEY uuidv4 (PutProduct id (Some (validApiKey API_KEY)) body) st
     = ({| status := 400;
           body := Failure "ValidationError"
                     ("Validation failed: "
                      +:+ join ", " (validation_errors body)) |},
        st).
Proof.
  intros Hv. unfold handle, route, bind.
  destruct (authenticated_or_not API_KEY (Some (validApiKey API_KEY)) st)
    as [[_ ->] | [Hne _]]; [| congruence].
  unfold validateProduct.
  destruct (validation_errors body) as [|m l]; [congruence |].
  split; reflexivity.
Qed.

(** X5. An authenticated DELETE answers NotFound (404) and changes nothing
    when no product has the identifier; otherwise it answers 200 with the
    first product that has it, and the collection is the old one without
    that position: the products before and after it keep their order. *)
Theorem delete_cases (id : string) (st : state) :
  (no_product id (products st) ->
   handle API_KEY uuidv4 (DeleteProduct id (Some (validApiKey API_KEY))) st
   = (not_found, st)) /\
  (forall i p, first_at id (products st) i p ->
   handle API_KEY uuidv4 (DeleteProduct id (Some (validApiKey API_KEY))) st
   = ({| status := 200; body := Message "Product deleted successfully" p |},
      {| products := take i (products st) ++ drop (S i) (products st);
         calls := calls st |})
   /\ S (length (take i (products st) ++ drop (S i) (products st)))
      = length (products st)).
Proof.
  pose proof (delete_accepted id st) as H. split.
  - intros Hnone. apply findIndex_no_product in Hnone. now rewrite Hnone in H.
  - intros i p Hat. pose proof Hat as [Hp _].
    assert (Arr.findIndex (fun q => String.eqb (Product.id q) id) (products st)
            = Some i) as E by (apply findIndex_first_at; eauto).
    rewrite E in H. destruct H as (q & Hq & ->).
    assert (q = p) as -> by congruence.
    rewrite <- delete_take_drop. split; [reflexivity |].
    apply lookup_lt_Some in Hp. rewrite length_delete; [lia |]. eauto.
Qed.

Lemma no_product_after_delete (id : string) (l : list Product.t) (i : nat)
    (p : Product.t) :
  NoDup (Product.id <$> l) -> l !! i = Some p -> Product.id p = id ->
  no_product id (delete i l).
Proof.
  intros Hnodup Hp Hid. apply Forall_forall. intros q Hq Heq.
  apply list_elem_of_lookup_1 in Hq as [k Hk].
  rewrite list_lookup_delete in Hk.
  assert ((Product.id <$> l) !! i = Some id) as Hi
    by now rewrite list_lookup_fmap, Hp, <- Hid.
  destruct (decide (k < i)%nat) as [Hlt|Hge].
  - assert ((Product.id <$> l) !! k = Some id) as Hk'
      by now rewrite list_lookup_fmap, Hk, <- Heq.
    pose proof (NoDup_lookup _ _ _ _ Hnodup Hk' Hi). lia.
  - assert ((Product.id <$> l) !! S k = Some id) as Hk'
      by now rewrite list_lookup_fmap, Hk, <- Heq.
    pose proof (NoDup_lookup _ _ _ _ Hnodup Hk' Hi). lia.
Qed.

(** X6. Remove then look up: when the identifiers of the collection are
    distinct, after an authenticated DELETE of an identifier no product has
    it any more, and a GET by it answers NotFound (404). *)
Theorem delete_then_get (id : string) (st : state) :
  NoDup (Product.id <$> products st) ->
  no_product id
    (products
       (snd (handle API_KEY uuidv4
               (DeleteProduct id (Some (validApiKey API_KEY))) st)))
  /\ fst (handle API_KEY uuidv4 (GetProduct id)
            (snd (handle API_KEY uuidv4
                    (DeleteProduct id (Some (validApiKey API_KEY))) st)))
     = not_found.
Proof.
  intros Hnodup.
  assert (no_product id
            (products
               (snd (handle API_KEY uuidv4
                       (DeleteProduct id (Some (validApiKey API_KEY))) st))))
    as Hnone.
  { pose proof (delete_accepted id st) as H.
    destruct (Arr.findIndex _ (products st)) as [i|] eqn:Ei.
    - destruct H as (p & Hp & ->). cbn [snd products].
      apply findIndex_first_at in Ei as (q & Hq & Hid & _).
      now apply (no_product_after_delete id _ i q).
    - rewrite H. now apply findIndex_no_product. }
  split; [exact Hnone |]. now rewrite get_missing.
Qed.

(** The routes without middleware only read the state. *)
Lemma reads_keep_state (r : request) (st : state) :
  mutating r = false -> snd (handle API_KEY uuidv4 r st) = st.
Proof.
  destruct r as [query|q| |id|apiKey body|id apiKey body|id apiKey];
    try discriminate; intros _.
  - destruct (list_products_cases API_KEY uuidv4 query st)
      as [(? & ? & ? & _ & _ & _ & ->) | [_ ->]]; reflexivity.
  - destruct (search_products_cases API_KEY uuidv4 q st)
      as [[_ ->] | [(? & ? & _ & _ & _ & ->) | [_ ->]]]; reflexivity.
  - reflexivity.
  - now rewrite get_product_run.
Qed.

(** X7. The collection changes only through a POST, PUT or DELETE that
    carries the valid key: every other request leaves the state as it is,
    and on those three routes it is answered 401 with an
    AuthenticationError. *)
Theorem unauthorized_keeps_state (r : request) (st : state) :
  ~ authorized API_KEY r ->
  snd (handle API_KEY uuidv4 r st) = st /\
  (mutating r = true ->
   exists message,
     fst (handle API_KEY uuidv4 r st) =
       {| status := 401; body := Failure "AuthenticationError" message |}).
Proof.
  intros Hno.
  destruct (mutating r) eqn:Hm;
    [| split; [now apply reads_keep_state | discriminate]].
  destruct r as [query|q| |id|apiKey body|id apiKey body|id apiKey];
    try discriminate; cbn [authorized] in Hno;
    (destruct (authenticated_or_not API_KEY apiKey st)
       as [[-> _] | [_ [m Ha]]]; [congruence |]);
    unfold handle, route, bind; rewrite Ha;
    (split; [reflexivity | intros _; now exists m]).
Qed.

(** X8. No request whose query parameters are strings is answered 500. A
    response is 200 with a listing, a search result, the statistics or a
    product; 200 or 201 with a message and a product; or a failure whose
    status and error name are 400 and ValidationError, 401 and
    AuthenticationError, 404 and NotFoundError or, only on a request with a
    query parameter that is an array or an object, 500 and
    InternalServerError. *)
Theorem responses_classified (r : request) (st : state) :
  match body (fst (handle API_KEY uuidv4 r st)) with
  | Failure e _ =>
      (status (fst (handle API_KEY uuidv4 r st)) = 400 /\ e = "ValidationError")
      \/ (status (fst (handle API_KEY uuidv4 r st)) = 401
          /\ e = "AuthenticationError")
      \/ (status (fst (handle API_KEY uuidv4 r st)) = 404
          /\ e = "NotFoundError")
      \/ (status (fst (handle API_KEY uuidv4 r st)) = 500
          /\ e = "InternalServerError" /\ ~ readable r)
  | Message _ _ =>
      status (fst (handle API_KEY uuidv4 r st)) = 200
      \/ status (fst (handle API_KEY uuidv4 r st)) = 201
  | MessageOnly _ => False
  | _ => status (fst (handle API_KEY uuidv4 r st)) = 200
  end.
Proof.
  destruct r as [query|q| |id|apiKey body|id apiKey body|id apiKey].
  - destruct (list_products_cases API_KEY uuidv4 query st)
      as [(? & ? & ? & _ & _ & _ & ->) | [_ E]]; [reflexivity |].
    rewrite E. cbn. do 3 right. split; [reflexivity |].
    split; [reflexivity |]. intros Hr.
    destruct (list_products_readable API_KEY uuidv4 query st Hr)
      as (? & ? & ? & _ & _ & _ & E').
    rewrite E' in E. discriminate.
  - destruct (search_products_cases API_KEY uuidv4 q st)
      as [[_ ->] | [(? & ? & _ & _ & _ & ->) | [Hq ->]]]; cbn; auto.
    do 3 right. auto.
  - reflexivity.
  - rewrite get_product_run. destruct (_ ≫= _); cbn; auto.
  - destruct (authenticated_or_not API_KEY apiKey st) as [[-> Ha] | [_ [m Ha]]].
    + destruct (validateProduct_cases body st) as [[Hv Hb] | [m Hb]].
      * destruct (post_accepted API_KEY uuidv4 body st Hv) as (p & _ & _ & _ & ->).
        cbn. auto.
      * unfold handle, route, bind. rewrite Ha, Hb. cbn. auto.
    + unfold handle, route, bind. rewrite Ha. cbn. auto.
  - destruct (authenticated_or_not API_KEY apiKey st) as [[-> Ha] | [_ [m Ha]]].
    + destruct (validateProduct_cases body st) as [[Hv Hb] | [m Hb]].
      * pose proof (put_accepted API_KEY uuidv4 id body st Hv) as H.
        destruct (Arr.findIndex _ (products st)).
        -- destruct H as (p & _ & _ & _ & ->). cbn. auto.
        -- rewrite H. cbn. auto.
      * unfold handle, route, bind. rewrite Ha, Hb. cbn. auto.
    + unfold handle, route, bind. rewrite Ha. cbn. auto.
  - destruct (authenticated_or_not API_KEY apiKey st) as [[-> Ha] | [_ [m Ha]]].
    + pose proof (delete_accepted id st) as H.
      destruct (Arr.findIndex _ (products st)).
      * destruct H as (p & _ & ->). cbn. auto.
      * rewrite H. cbn. auto.
    + unfold handle, route, bind. rewrite Ha. cbn. auto.
Qed.

(** X9. A PUT, whatever its key and body, never adds, removes, reorders or
    renames: the sequence of the identifiers in the collection, and so its
    length, is the same after it. *)
Theorem put_keeps_identifiers (id : string) (apiKey : option string)
    (body : list (string * value)) (st : state) :
  Product.id <$> products (snd (handle API_KEY uuidv4
                                  (PutProduct id apiKey body) st))
  = Product.id <$> products st
  /\ length (products (snd (handle API_KEY uuidv4
                              (PutProduct id apiKey body) st)))
     = length (products st).
Proof.
  assert (Product.id <$> products (snd (handle API_KEY uuidv4
                                          (PutProduct id apiKey body) st))
          = Product.id <$> products st) as E.
  { destruct (authenticated_or_not API_KEY apiKey st) as [[-> Ha] | [_ [m Ha]]].
    - destruct (validateProduct_cases body st) as [[Hv Hb] | [m Hb]].
      + pose proof (put_accepted API_KEY uuidv4 id body st Hv) as H.
        destruct (Arr.findIndex _ (products st)) as [i|] eqn:Ei.
        * destruct H as (p & _ & _ & Hid & ->). cbn [snd products].
          apply findIndex_first_at in Ei as (q & Hq & Hqid & _).
          rewrite list_fmap_insert, list_insert_id; [reflexivity |].
          rewrite list_lookup_fmap, Hq. cbn. congruence.
        * now rewrite H.
      + unfold handle, route, bind. now rewrite Ha, Hb.
    - unfold handle, route, bind. now rewrite Ha. }
  split; [exact E |].
  apply (f_equal length) in E. now rewrite !length_fmap in E.
Qed.

End Catalogue.

(** ** Further properties of the listing and of the search (lines 148-215) *)

Section Pages.

Variable API_KEY : option string.
Variable uuidv4 : nat -> string.

Lemma list_filter_sublist_mono {A} (f g : A -> bool) (l : list A) :
  (forall x, f x = true -> g x = true) ->
  List.filter f l `sublist_of` List.filter g l.
Proof.
  intros Hfg. induction l as [|x l IH]; cbn; [constructor |].
  destruct (f x) eqn:Fx.
  - rewrite (Hfg x Fx). now constructor.
  - destruct (g x); [now constructor | exact IH].
Qed.

Lemma filter_try_sublist {A} (f : A -> outcome bool) (l kept : list A) :
  filter_try f l = Return kept -> kept `sublist_of` l.
Proof.
  revert kept. induction l as [|x l IH]; intros kept; cbn.
  - now intros [= <-].
  - destruct (f x) as [b|]; [| discriminate].
    destruct (filter_try f l) as [r|]; [| discriminate].
    intros [= <-]. specialize (IH r eq_refl).
    destruct b; now constructor.
Qed.

Lemma filter_products_sublist (query : Query.t) (all kept : list Product.t) :
  filter_products query all = Return kept -> kept `sublist_of` all.
Proof.
  unfold filter_products.
  set (by_category := match Query.category query with
                      | Some category => _
                      | None => _
                      end).
  assert (forall l, by_category = Return l -> l `sublist_of` all) as Hc.
  { subst by_category. intros l.
    destruct (Query.category query) as [category|];
      [destruct (Param.truthy category) |];
      [apply filter_try_sublist | now intros [= <-] ..]. }
  destruct by_category as [l|]; [| discriminate].
  specialize (Hc l eq_refl).
  set (by_stock := match Query.inStock query with
                   | Some inStock => _
                   | None => _
                   end).
  assert (by_stock `sublist_of` all) as Hs.
  { subst by_stock. destruct (Query.inStock query); [| exact Hc].
    etransitivity; [apply list_filter_sublist | exact Hc]. }
  destruct (Query.search query) as [search|]; [| now intros [= <-]].
  destruct (Param.truthy search); [| now intros [= <-]].
  destruct (Param.toLowerCase search); [| discriminate].
  intros [= <-]. etransitivity; [apply list_filter_sublist | exact Hs].
Qed.

Lemma slice_sublist {A} (l : list A) (a b : number) :
  Arr.slice l a b `sublist_of` l.
Proof.
  unfold Arr.slice. etransitivity; [apply sublist_take | apply sublist_drop].
Qed.

(** X10. Whatever the query (negative, zero or non-numeric page and limit
    included), the listing never invents, repeats or reorders, and leaves
    the state unchanged: it is answered 500, or 200 with a page whose
    products are a subsequence of the collection, [totalProducts] at most
    the size of the collection and at most [totalProducts] products on the
    page. It is answered 200 whenever [category], [search], [page] and
    [limit], when present, are strings. *)
Theorem listing_is_subsequence (query : Query.t) (st : state) :
  snd (handle API_KEY uuidv4 (GetProducts query) st) = st /\
  (fst (handle API_KEY uuidv4 (GetProducts query) st) = server_error \/
   exists page meta,
     fst (handle API_KEY uuidv4 (GetProducts query) st) =
       {| status := 200; body := Listing page meta |} /\
     page `sublist_of` products st /\
     (length page <= totalProducts meta)%nat /\
     (totalProducts meta <= length (products st))%nat) /\
  (readable (GetProducts query) ->
   status (fst (handle API_KEY uuidv4 (GetProducts query) st)) = 200).
Proof.
  split; [| split].
  - destruct (list_products_cases API_KEY uuidv4 query st)
      as [(? & ? & ? & _ & _ & _ & ->) | [_ ->]]; reflexivity.
  - destruct (list_products_cases API_KEY uuidv4 query st)
      as [(filtered & pageNum & limitNum & Hf & _ & _ & ->) | [_ ->]];
      [right | now left].
    eexists _, _. split; [reflexivity |]. cbn [totalProducts].
    pose proof (filter_products_sublist _ _ _ Hf) as Hsub.
    pose proof (slice_sublist filtered
      (Num.mul (Num.sub pageNum (Int 1)) limitNum)
      (Num.mul pageNum limitNum)) as Hs.
    split; [etransitivity; [exact Hs | exact Hsub] |].
    split; [exact (sublist_length _ _ Hs) | exact (sublist_length _ _ Hsub)].
  - intros Hr.
    destruct (list_products_readable API_KEY uuidv4 query st Hr)
      as (? & ? & ? & _ & _ & _ & ->).
    reflexivity.
Qed.

Lemma take_plus {A} (a b : nat) (l : list A) :
  take (a + b) l = take a l ++ take b (drop a l).
Proof.
  revert l; induction a as [|a IH]; intros l; [reflexivity |].
  destruct l as [|x l]; cbn; [now rewrite take_nil | now rewrite IH].
Qed.

(** The page number [k + 1] by pages of [limit >= 0]. *)
Lemma page_window (l : list Product.t) (limit : Z) (k : nat) :
  0 <= limit ->
  page_of (paginate l (Int (Z.of_nat (S k))) (Int limit)) =
    take (Z.to_nat limit) (drop (k * Z.to_nat limit) l).
Proof.
  intros Hl. unfold paginate, page_of. cbn [Num.sub Num.mul].
  rewrite slice_window by nia. unfold window. f_equal; [| f_equal]; nia.
Qed.

Lemma pages_take (l : list Product.t) (limit : Z) (n : nat) :
  0 <= limit -> concat (pages l limit n) = take (n * Z.to_nat limit) l.
Proof.
  intros Hl. unfold pages. induction n as [|n IH]; [reflexivity |].
  rewrite seq_S, map_app, concat_app, IH. cbn [map concat Nat.add].
  rewrite page_window, app_nil_r by exact Hl.
  replace (S n * Z.to_nat limit)%nat with (n * Z.to_nat limit + Z.to_nat limit)%nat
    by lia.
  now rewrite take_plus.
Qed.

(** X11. The pages partition the filtered sequence: for a limit of at least
    1, when the listing reports [totalPages = n], the pages 1 to [n] put end
    to end are the whole sequence, each product once and in order. *)
Theorem pages_partition (l : list Product.t) (limit : Z) (n : nat) :
  1 <= limit ->
  totalPages <$> meta_of (paginate l (Int 1) (Int limit))
    = Some (QInt (Z.of_nat n)) ->
  concat (pages l limit n) = l.
Proof.
  intros Hl Hn. rewrite pages_take by lia.
  destruct (ceil_div_ceiling (Z.of_nat (length l)) limit ltac:(lia))
    as (c & Hc & Hceil).
  change (Some (Num.ceil_div (Z.of_nat (length l)) (Int limit))
          = Some (QInt (Z.of_nat n))) in Hn.
  rewrite Hc in Hn. injection Hn as ->.
  unfold is_ceiling in Hceil. destruct (Z.ltb_spec 0 limit); [| lia].
  apply take_ge. nia.
Qed.

(** X12. For a page of at least 1 and a limit of at least 1, with [n] the
    reported [totalPages]: the page holds at most [limit] products, exactly
    [limit] before the last page, at least one up to the last page and none
    beyond it; [hasNext] says that the page is before the last one and
    [hasPrev] that it is after the first. *)
Theorem page_position (l : list Product.t) (page limit : Z) :
  1 <= page -> 1 <= limit ->
  exists products_of_page meta n,
    paginate l (Int page) (Int limit) = Listing products_of_page meta /\
    totalPages meta = QInt n /\
    Z.of_nat (length products_of_page) <= limit /\
    (page < n -> Z.of_nat (length products_of_page) = limit) /\
    (page <= n -> products_of_page <> []) /\
    (n < page -> products_of_page = []) /\
    (hasNext meta = true <-> page < n) /\
    (hasPrev meta = true <-> 1 < page).
Proof.
  intros Hp Hl.
  destruct (ceil_div_ceiling (Z.of_nat (length l)) limit ltac:(lia))
    as (n & Hn & Hceil).
  unfold is_ceiling in Hceil. destruct (Z.ltb_spec 0 limit); [| lia].
  eexists _, _, n. split; [reflexivity |].
  cbn [totalPages hasNext hasPrev Num.sub Num.mul Num.lt Num.gt].
  split; [exact Hn |].
  rewrite slice_window by nia. unfold window.
  assert (length (take (Z.to_nat (page * limit) - Z.to_nat ((page - 1) * limit))
                    (drop (Z.to_nat ((page - 1) * limit)) l))
          = Nat.min (Z.to_nat limit)
              (length l - Z.to_nat ((page - 1) * limit))) as Hlen.
  { rewrite length_take, length_drop. f_equal. nia. }
  split; [lia |]. split; [nia |].
  split.
  { intros Hle E. rewrite E in Hlen. cbn in Hlen. nia. }
  split.
  { intros Hgt. apply length_zero_iff_nil. nia. }
  rewrite !Z.ltb_lt. split; [split; nia | split; nia].
Qed.

Lemma nonempty_lower (s : string) : nonempty (toLowerCase s) = nonempty s.
Proof. now destruct s. Qed.

(** X13. The listing reads [category] and [search] up to case: two queries
    whose categories have the same lower-case form, and whose search terms
    have the same lower-case form, get the same response. *)
Theorem listing_ignores_case (c c' t t' : string)
    (page limit inStock : option param) (st : state) :
  toLowerCase c = toLowerCase c' ->
  toLowerCase t = toLowerCase t' ->
  handle API_KEY uuidv4
    (GetProducts
       (Query.mk (Some (PString c)) (Some (PString t)) page limit inStock)) st
  = handle API_KEY uuidv4
      (GetProducts
         (Query.mk (Some (PString c')) (Some (PString t')) page limit
            inStock)) st.
Proof.
  intros Hc Ht.
  unfold handle, route, list_products, bind, get, ret, lift.
  rewrite (filter_products_stages (Some c) (Some t)),
          (filter_products_stages (Some c') (Some t')).
  rewrite <- (nonempty_lower c), <- (nonempty_lower c'), Hc, Ht.
  reflexivity.
Qed.

(** X14. The search answers 200 with its term, the matching products as a
    subsequence of the collection and their number; every product it finds
    is also kept, in the same order, by the listing's [search] filter for
    the same term, which matches the category as well. *)
Theorem search_within_listing (t : string) (st : state) :
  t <> EmptyString ->
  exists results kept,
    handle API_KEY uuidv4 (GetSearch (Some (PString t))) st =
      ({| status := 200;
          body := SearchResults (PString t) results (length results) |},
       st) /\
    results `sublist_of` products st /\
    filter_products (Query.mk None (Some (PString t)) None None None)
      (products st) = Return kept /\
    results `sublist_of` kept.
Proof.
  intros Ht. destruct t as [|a t]; [congruence |].
  eexists _, _. split; [reflexivity |]. split; [apply list_filter_sublist |].
  split; [reflexivity |].
  apply list_filter_sublist_mono. intros p Hp.
  now rewrite Hp.
Qed.

End Pages.

(** ** Further properties of the statistics (lines 218-246) *)

Section Counts.

(** X15. For every collection: the in-stock and out-of-stock counts add up
    to [totalProducts], which is the size of the collection; [averagePrice]
    is the number 0 exactly for the empty collection; and whenever
    [totalValue] or [averagePrice] is printed in fixed-point notation it has
    exactly two decimals. *)
Theorem stats_counts (all : list Product.t) :
  (Stats.inStockCount (compute_stats all)
   + Stats.outOfStockCount (compute_stats all)
   = Stats.totalProducts (compute_stats all))%nat /\
  Stats.totalProducts (compute_stats all) = length all /\
  (Stats.averagePrice (compute_stats all) = AverageZero <-> all = []) /\
  (forall s, Stats.totalValue (compute_stats all) = Double.Fixed s ->
             two_decimals s) /\
  (forall s, Stats.averagePrice (compute_stats all)
             = AverageFixed (Double.Fixed s) -> two_decimals s).
Proof.
  unfold compute_stats.
  destruct (fold_left stats_step all (∅, Double.zero)) as [m t].
  cbn [Stats.totalProducts Stats.inStockCount Stats.outOfStockCount
       Stats.averagePrice Stats.totalValue].
  split; [| split; [reflexivity | split; [| split]]].
  - clear. induction all as [|p all IH]; [reflexivity |].
    cbn. destruct (Product.inStock p); cbn; lia.
  - destruct all; cbn; split; congruence.
  - intros s. apply toFixed_two_decimals.
  - intros s. destruct (0 <? length all)%nat; [| discriminate].
    intros [= E]. now apply toFixed_two_decimals in E.
Qed.

(** X16. When no product is in a category named like a property that object
    literals inherit, [categoryCounts] has exactly the categories of the
    collection as keys, each with the number of its products. *)
Theorem category_counts_regular (all : list Product.t) (c : string) :
  Forall (fun p => Product.category p ∉ Obj.Object_prototype) all ->
  Stats.categoryCounts (compute_stats all) !! c =
    if (count_category c all =? 0)%nat then None
    else Some (Int (Z.of_nat (count_category c all))).
Proof.
  intros Hreg. unfold compute_stats.
  pose proof (stats_fold_regular all [] ∅ Double.zero Hreg) as Hfold.
  destruct (fold_left stats_step all (∅, Double.zero)) as [m t].
  cbn [Stats.categoryCounts]. apply Hfold. intros k. reflexivity.
Qed.

End Counts.

(** ** Further properties of validation and authentication (lines 86-131) *)

Section Normal.

Variable API_KEY : option string.
Variable uuidv4 : nat -> string.

Lemma built_unique (id : string) (body : list (string * value))
    (p q : Product.t) :
  built id body p -> built id body q -> p = q.
Proof.
  intros (n & d & x & c & f & Hn & Hd & Hx & Hc & Hf & ->)
         (n' & d' & x' & c' & f' & Hn' & Hd' & Hx' & Hc' & Hf' & ->).
  congruence.
Qed.

(** A valid product sent back as a body passes validation. *)
Lemma body_of_valid (p : Product.t) :
  valid_product p -> validation_errors (body_of p) = [].
Proof.
  intros [Hn Hd Hp Hc].
  assert (forall k s, (k <= String.length (trim s))%nat -> (0 < k)%nat ->
                      bad_text k (VString s) = false) as Htext.
  { intros k s Hk Hpos. unfold bad_text. cbn -[Nat.ltb].
    destruct s as [|a s]; [cbn in Hk; lia |]. cbn -[Nat.ltb trim].
    now apply Nat.ltb_ge. }
  unfold validation_errors, body_of. cbn -[bad_text bad_price].
  rewrite !Htext by (assumption || lia).
  assert (bad_price (VNumber (Product.price p)) = false) as ->.
  { unfold Double.ltb in Hp.
    destruct (Product.price p) as [?|[|]| |[|] m e]; try discriminate Hp;
      reflexivity. }
  reflexivity.
Qed.

(** X17. Sending a stored record back changes nothing: when [p] is the
    record built from a valid body and it is the first product with its
    identifier, an authenticated PUT of [p]'s own fields is accepted,
    answers 200 with [p] and leaves the state as it is (normalizing a
    normalized record is the identity). *)
Theorem put_back_unchanged (id : string) (body : list (string * value))
    (p : Product.t) (i : nat) (st : state) :
  validation_errors body = [] ->
  built id body p ->
  first_at id (products st) i p ->
  handle API_KEY uuidv4 (PutProduct id (Some (validApiKey API_KEY)) (body_of p)) st
  = ({| status := 200; body := Message "Product updated successfully" p |}, st).
Proof.
  intros Hv Hb Hat.
  destruct (build_validated body id Hv) as (p' & Hb' & Hp & _ & _).
  assert (p' = p) as -> by (eapply built_unique; eassumption).
  assert (built id (body_of p) p) as Hback.
  { destruct Hb as (n & d & x & c & f & _ & _ & Hx & _ & _ & ->).
    exists (trim n), (trim d), (Double.parseFloat x), (trim c), f.
    cbn. repeat split. rewrite !trim_idem. now destruct x. }
  pose proof (put_accepted API_KEY uuidv4 id (body_of p) st (body_of_valid p Hp))
    as H.
  assert (Arr.findIndex (fun q => String.eqb (Product.id q) id) (products st)
          = Some i) as E by (apply findIndex_first_at; eauto).
  rewrite E in H. destruct H as (q & Hq & _ & _ & ->).
  assert (q = p) as -> by (eapply built_unique; eassumption).
  destruct Hat as [Hi _]. rewrite list_insert_id by exact Hi.
  now destruct st.
Qed.

(** X18. A PUT is idempotent: sent a second time, with the same identifier,
    key and body, it gets the same response and leaves the same state as
    the first time. *)
Theorem put_idempotent (id : string) (apiKey : option string)
    (body : list (string * value)) (st : state) :
  handle API_KEY uuidv4 (PutProduct id apiKey body)
    (snd (handle API_KEY uuidv4 (PutProduct id apiKey body) st))
  = handle API_KEY uuidv4 (PutProduct id apiKey body) st.
Proof.
  destruct (authenticated_or_not API_KEY apiKey st) as [[-> Ha] | [Hne [m Ha]]].
  - destruct (validateProduct_cases body st) as [[Hv Hb] | [m Hb]].
    + pose proof (put_accepted API_KEY uuidv4 id body st Hv) as H.
      destruct (Arr.findIndex _ (products st)) as [i|] eqn:Ei.
      * destruct H as (p & Hp & _ & Hid & E). rewrite E. cbn [snd].
        pose proof (put_accepted API_KEY uuidv4 id body
                      {| products := <[i := p]> (products st);
                         calls := calls st |} Hv) as H'.
        cbn [products calls] in H'.
        rewrite (findIndex_insert _ _ _ p Ei) in H'
          by (rewrite Hid; apply String.eqb_refl).
        destruct H' as (q & Hq & _ & _ & ->).
        assert (q = p) as -> by (eapply built_unique; eassumption).
        now rewrite list_insert_insert_eq.
      * rewrite H. cbn [snd]. now rewrite H.
    + assert (handle API_KEY uuidv4
                (PutProduct id (Some (validApiKey API_KEY)) body) st
              = (errorHandler (ValidationError m), st)) as E
        by (unfold handle, route, bind; now rewrite Ha, Hb).
      rewrite E. cbn [snd]. now rewrite E.
  - assert (handle API_KEY uuidv4 (PutProduct id apiKey body) st
            = (errorHandler (AuthenticationError m), st)) as E
      by (unfold handle, route, bind; now rewrite Ha).
    rewrite E. cbn [snd]. now rewrite E.
Qed.

(** X19. Exactly one key opens the three protected routes: the middleware
    lets a request through if and only if its header is the valid key,
    which is the environment's [API_KEY] when that is set and not empty and
    the documented default otherwise; it is never the empty string, so an
    empty [API_KEY] does not open the routes to an empty header. *)
Theorem authentication_exact (apiKey : option string) (st : state) :
  (authenticateApiKey API_KEY apiKey st = (Return tt, st)
   <-> apiKey = Some (validApiKey API_KEY)) /\
  validApiKey API_KEY <> EmptyString /\
  (forall k, API_KEY = Some k -> k <> EmptyString -> validApiKey API_KEY = k) /\
  (API_KEY = None \/ API_KEY = Some EmptyString ->
   validApiKey API_KEY = "your-secret-api-key").
Proof.
  split; [| split; [apply validApiKey_nonempty | split]].
  - destruct (authenticated_or_not API_KEY apiKey st)
      as [[-> Ha] | [Hne [m Ha]]]; rewrite Ha; split; congruence.
  - intros k -> Hk. unfold validApiKey. now destruct k.
  - intros [-> | ->]; reflexivity.
Qed.

End Normal.

(** ** Edge cases of the query parameters (lines 151-193) *)

Section Edges.

Variable API_KEY : option string.
Variable uuidv4 : nat -> string.

Lemma ceil_tenth (n : Z) : 0 <= n -> - (- n / 10) = (n + 9) / 10.
Proof.
  intros Hn.
  pose proof (Z.div_mod (- n) 10 ltac:(lia)).
  pose proof (Z.mod_pos_bound (- n) 10 ltac:(lia)).
  pose proof (Z.div_mod (n + 9) 10 ltac:(lia)).
  pose proof (Z.mod_pos_bound (n + 9) 10 ltac:(lia)).
  lia.
Qed.

(** X20. Without any query parameter the listing answers with the first ten
    products of the collection as page 1, the number of pages of ten that
    the collection fills, [hasNext] when there are more than ten products
    and [hasPrev] false. *)
Theorem listing_defaults (st : state) :
  handle API_KEY uuidv4 (GetProducts (Query.mk None None None None None)) st
  = ({| status := 200;
        body := Listing (take 10 (products st))
                  {| currentPage := Int 1;
                     totalPages :=
                       QInt ((Z.of_nat (length (products st)) + 9) / 10);
                     totalProducts := length (products st);
                     hasNext := 10 <? Z.of_nat (length (products st));
                     hasPrev := false |} |},
     st).
Proof.
  unfold handle, route, list_products, bind, get, ret, lift, filter_products,
    paginate.
  cbn [Query.category Query.search Query.inStock Query.page Query.limit
       parse_param Num.sub Num.mul Num.lt Num.gt Num.ceil_div].
  rewrite slice_window by lia. rewrite ceil_tenth by lia.
  reflexivity.
Qed.

(** X21. The stock filter knows one spelling of true: for every value of
    [inStock] other than the string true itself (false, TRUE, 1, yes, the
    empty string, an array or an object), the listing is the one for
    [inStock=false], that is, the products that are out of stock. *)
Theorem stock_filter_strict (s : param)
    (category search page limit : option param) (st : state) :
  s <> PString "true" ->
  handle API_KEY uuidv4
    (GetProducts (Query.mk category search page limit (Some s))) st
  = handle API_KEY uuidv4
      (GetProducts
         (Query.mk category search page limit (Some (PString "false")))) st.
Proof.
  intros Hs.
  assert (Param.is_true s = false) as E.
  { destruct (Param.is_true s) eqn:E; [| reflexivity].
    now apply is_true_spec in E. }
  unfold handle, route, list_products, bind, get, ret, lift, filter_products.
  cbn [Query.category Query.search Query.inStock Query.page Query.limit].
  rewrite E. reflexivity.
Qed.

(** X22. With [limit=0] every page is empty, whatever the page number:
    [hasPrev] is false, [hasNext] is true as soon as the filtered sequence
    is not empty, and [totalPages] is no finite number (an infinity, or NaN
    for an empty sequence). *)
Theorem limit_zero (l : list Product.t) (page : Z) :
  paginate l (Int page) (Int 0) =
    Listing []
      {| currentPage := Int page;
         totalPages := if Z.of_nat (length l) =? 0 then QNaN else QInfinity;
         totalProducts := length l;
         hasNext := 0 <? Z.of_nat (length l);
         hasPrev := false |}.
Proof.
  unfold paginate. cbn [Num.sub Num.mul Num.lt Num.gt Num.ceil_div].
  rewrite !Z.mul_0_r. rewrite slice_window by lia. reflexivity.
Qed.

End Edges.

(** ** Instances of the further properties on the seed collection *)

Lemma sample_fresh :
  no_product (sample_uuid (calls sample_seed)) (products sample_seed).
Proof. apply (bool_decide_unpack _). vm_compute. exact I. Qed.

Lemma sample_distinct : NoDup (Product.id <$> products sample_seed).
Proof. apply (bool_decide_unpack _). vm_compute. exact I. Qed.

(** A POST of the sample body on the seed collection, then a GET. *)
Lemma post_then_get_witness :
  validation_errors sample_valid_body = [] /\
  no_product (sample_uuid (calls sample_seed)) (products sample_seed) /\
  exists p,
    built (sample_uuid (calls sample_seed)) sample_valid_body p /\
    fst (handle None sample_uuid (GetProduct (sample_uuid (calls sample_seed)))
           (snd (handle None sample_uuid
                   (PostProduct (Some (validApiKey None)) sample_valid_body)
                   sample_seed)))
    = {| status := 200; body := OneProduct p |}.
Proof.
  split; [reflexivity |]. split; [exact sample_fresh |].
  destruct (post_then_get None sample_uuid sample_valid_body sample_seed
              eq_refl sample_fresh) as (p & Hb & _ & _ & Hget).
  exists p. split; assumption.
Defined.

(** A POST of the sample body on the seed collection, then its DELETE. *)
Lemma post_then_delete_witness :
  validation_errors sample_valid_body = [] /\
  no_product (sample_uuid (calls sample_seed)) (products sample_seed) /\
  products
    (snd (handle None sample_uuid
            (DeleteProduct (sample_uuid (calls sample_seed))
               (Some (validApiKey None)))
            (snd (handle None sample_uuid
                    (PostProduct (Some (validApiKey None)) sample_valid_body)
                    sample_seed))))
  = products sample_seed.
Proof.
  split; [reflexivity |]. split; [exact sample_fresh |].
  destruct (post_then_delete None sample_uuid sample_valid_body sample_seed
              eq_refl sample_fresh) as (p & _ & _ & Hrest).
  exact Hrest.
Defined.

(** The payload that breaks all five rules, with the valid key. *)
Lemma validation_refused_witness :
  validation_errors sample_invalid_body <> [] /\
  snd (handle None sample_uuid
         (PostProduct (Some (validApiKey None)) sample_invalid_body)
         sample_seed) = sample_seed /\
  snd (handle None sample_uuid
         (PutProduct (sample_uuid 0) (Some (validApiKey None))
            sample_invalid_body) sample_seed) = sample_seed.
Proof.
  assert (validation_errors sample_invalid_body <> []) as Hv by discriminate.
  split; [exact Hv |].
  destruct (validation_refused None sample_uuid (sample_uuid 0)
              sample_invalid_body sample_seed Hv) as [Hpost Hput].
  split; [exact (f_equal snd Hpost) | exact (f_equal snd Hput)].
Defined.

(** The removal of the third seed product. *)
Lemma delete_then_get_witness :
  NoDup (Product.id <$> products sample_seed) /\
  fst (handle None sample_uuid (GetProduct (sample_uuid 2))
         (snd (handle None sample_uuid
                 (DeleteProduct (sample_uuid 2) (Some (validApiKey None)))
                 sample_seed)))
  = not_found.
Proof.
  split; [exact sample_distinct |].
  exact (proj2 (delete_then_get None sample_uuid (sample_uuid 2) sample_seed
                  sample_distinct)).
Defined.

(** A DELETE with a wrong key. *)
Lemma unauthorized_keeps_state_witness :
  ~ authorized None (DeleteProduct (sample_uuid 2) (Some "guess")) /\
  snd (handle None sample_uuid (DeleteProduct (sample_uuid 2) (Some "guess"))
         sample_seed) = sample_seed.
Proof.
  assert (~ authorized None (DeleteProduct (sample_uuid 2) (Some "guess")))
    as Hno by discriminate.
  split; [exact Hno |].
  exact (proj1 (unauthorized_keeps_state None sample_uuid _ sample_seed Hno)).
Defined.

(** The five seed products by pages of two: three pages. *)
Lemma pages_partition_witness :
  1 <= 2 /\
  totalPages <$> meta_of (paginate (products sample_seed) (Int 1) (Int 2))
    = Some (QInt (Z.of_nat 3)) /\
  concat (pages (products sample_seed) 2 3) = products sample_seed.
Proof.
  split; [lia |]. split; [reflexivity |].
  apply (pages_partition (products sample_seed) 2 3); [lia | reflexivity].
Defined.

(** The second page of the seed products by pages of two. *)
Lemma page_position_witness :
  1 <= 2 /\ 1 <= 2 /\
  exists products_of_page meta n,
    paginate (products sample_seed) (Int 2) (Int 2)
      = Listing products_of_page meta /\
    totalPages meta = QInt n /\
    (hasNext meta = true <-> 2 < n) /\
    (hasPrev meta = true <-> 1 < 2).
Proof.
  split; [lia |]. split; [lia |].
  destruct (page_position (products sample_seed) 2 2) as
    (pg & meta & n & E & Hn & _ & _ & _ & _ & Hnext & Hprev); [lia | lia |].
  exists pg, meta, n. repeat split; solve [assumption | apply Hnext | apply Hprev].
Defined.

(** Two spellings of the same category and of the same term. *)
Lemma listing_ignores_case_witness :
  toLowerCase "ELECTRONICS" = toLowerCase "electronics" /\
  toLowerCase "Laptop" = toLowerCase "LAPTOP" /\
  handle None sample_uuid
    (GetProducts
       (Query.mk (Some (PString "ELECTRONICS")) (Some (PString "Laptop"))
          None None None))
    sample_seed
  = handle None sample_uuid
      (GetProducts
         (Query.mk (Some (PString "electronics")) (Some (PString "LAPTOP"))
            None None None))
      sample_seed.
Proof.
  split; [reflexivity |]. split; [reflexivity |].
  exact (listing_ignores_case None sample_uuid "ELECTRONICS" "electronics"
           "Laptop" "LAPTOP" None None None sample_seed eq_refl eq_refl).
Defined.

(** The search for the term chair. *)
Lemma search_within_listing_witness :
  "chair" <> EmptyString /\
  exists results,
    handle None sample_uuid (GetSearch (Some (PString "chair"))) sample_seed =
      ({| status := 200;
          body := SearchResults (PString "chair") results (length results) |},
       sample_seed) /\
    results `sublist_of` products sample_seed.
Proof.
  assert ("chair" <> EmptyString) as Ht by discriminate.
  split; [exact Ht |].
  destruct (search_within_listing None sample_uuid "chair" sample_seed Ht)
    as (results & kept & E & Hsub & _).
  exists results. split; assumption.
Defined.

(** The categories of the seed collection. *)
Lemma category_counts_regular_witness :
  Forall (fun p => Product.category p ∉ Obj.Object_prototype)
    (products sample_seed) /\
  Stats.categoryCounts (compute_stats (products sample_seed)) !! "Electronics"
  = Some (Int 3) /\
  Stats.categoryCounts (compute_stats (products sample_seed)) !! "Garden"
  = None.
Proof.
  assert (Forall (fun p => Product.category p ∉ Obj.Object_prototype)
            (products sample_seed)) as Hreg.
  { apply (bool_decide_unpack _). vm_compute. exact I. }
  split; [exact Hreg |].
  split.
  - exact (category_counts_regular (products sample_seed) "Electronics" Hreg).
  - exact (category_counts_regular (products sample_seed) "Garden" Hreg).
Defined.

(** The record of the sample body, at the head of a collection, put back. *)
Lemma put_back_unchanged_witness :
  validation_errors sample_valid_body = [] /\
  exists p st,
    built (sample_uuid 9) sample_valid_body p /\
    first_at (sample_uuid 9) (products st) 0 p /\
    handle None sample_uuid
      (PutProduct (sample_uuid 9) (Some (validApiKey None)) (body_of p)) st
    = ({| status := 200; body := Message "Product updated successfully" p |},
       st).
Proof.
  split; [reflexivity |].
  destruct (build_validated sample_valid_body (sample_uuid 9) eq_refl)
    as (p & Hb & _ & Hid & _).
  assert (first_at (sample_uuid 9)
            (products {| products := [p]; calls := 10 |}) 0 p) as Hat.
  { split; [reflexivity |]. split; [exact Hid |]. intros j q Hj. lia. }
  exists p, {| products := [p]; calls := 10 |}.
  split; [exact Hb |]. split; [exact Hat |].
  exact (put_back_unchanged None sample_uuid (sample_uuid 9) sample_valid_body
           p 0 _ eq_refl Hb Hat).
Defined.

(** The value TRUE of the stock parameter. *)
Lemma stock_filter_strict_witness :
  PString "TRUE" <> PString "true" /\
  page_of (body (fst (handle None sample_uuid
                        (GetProducts
                           (Query.mk None None None None
                              (Some (PString "TRUE"))))
                        sample_seed)))
  = List.filter (fun p => negb (Product.inStock p)) (products sample_seed).
Proof.
  assert (PString "TRUE" <> PString "true") as Hs by discriminate.
  split; [exact Hs |].
  rewrite (stock_filter_strict None sample_uuid (PString "TRUE") None None
             None None sample_seed Hs).
  reflexivity.
Defined.
